(** * CH34x WebUSB serial driver (src/index.ts): model and properties

    A shallow embedding of the driver class [CH34xUsbSerial].  JavaScript
    numbers are IEEE-754 binary64 values; the int32 operators ([>>], [&],
    [|], [~]) go through [ToInt32].  The USB transport is an external
    collaborator: it is modelled as an oracle that answers every call from
    the history of the calls made so far.  Asynchronous methods are run
    sequentially (every transport call in them is awaited), except for the
    bulk-in transfer of the read loop, whose completion is a separate entry
    point. *)

From Stdlib Require Import ZArith List Bool String Ascii Lia DecimalString.
From Stdlib Require Import Floats.SpecFloat.
Import ListNotations.
Local Open Scope string_scope.
Local Open Scope list_scope.
Local Open Scope Z_scope.

(** ** JavaScript numbers *)

Module JS.

(** A JS [number] is a binary64 float: 53 bits of precision, emax 1024. *)
Definition number := spec_float.

Definition prec : Z := 53.
Definition emax : Z := 1024.

(** An integer literal or integer-valued variable as a [number]. *)
Definition of_int (z : Z) : number := binary_normalize prec emax z 0 false.

(** [x / y] and [x - y]. *)
Definition div (x y : number) : number := SFdiv prec emax x y.
Definition sub (x y : number) : number := SFsub prec emax x y.

(** [x > y]; false when either side is NaN. *)
Definition gt (x y : number) : bool := SFltb y x.

(** The integer part of a number, rounding toward zero; NaN, infinities
    and zeros give 0 (the first steps of ToInt32). *)
Definition trunc (x : number) : Z :=
  match x with
  | S754_finite s m e =>
      let mag := match e with
                 | Zneg k => Z.shiftr (Zpos m) (Zpos k)
                 | _ => Z.shiftl (Zpos m) e
                 end in
      if s then - mag else mag
  | _ => 0
  end.

(** Reduction modulo 2^32 into the signed range. *)
Definition wrap32 (z : Z) : Z := (z + 2 ^ 31) mod 2 ^ 32 - 2 ^ 31.

Definition ToInt32 (x : number) : Z := wrap32 (trunc x).

(** [x >> n] (sign-propagating), [x & y], [x | y], [~x]. *)
Definition sar (x : number) (n : Z) : Z := Z.shiftr (ToInt32 x) (Z.land n 31).
Definition band (x y : number) : Z := Z.land (ToInt32 x) (ToInt32 y).
Definition bor (x y : number) : Z := wrap32 (Z.lor (ToInt32 x) (ToInt32 y)).
Definition bnot (x : number) : Z := Z.lnot (ToInt32 x).

End JS.

(** ** Values that are thrown or that reject a promise *)

Inductive JsValue :=
| JsError (message : string)   (* an Error or DOMException object *)
| JsString (s : string)        (* a bare string, as in reject("...") *)
| JsUndefined.

(** How a call ends: it returns a value or throws one. *)
Inductive Outcome (A : Type) :=
| Return (a : A)
| Throw (e : JsValue).
Arguments Return {A} a.
Arguments Throw {A} e.

(** ** Constants of the driver *)

Definition REQUEST_READ_VERSION : Z := 0x5F.
Definition REQUEST_READ_REGISTRY : Z := 0x95.
Definition REQUEST_WRITE_REGISTRY : Z := 0x9A.
Definition REQUEST_SERIAL_INITIATION : Z := 0xA1.

Definition REG_MODEM_CTRL : Z := 0xA4.
Definition REG_BAUD_FACTOR : Z := 0x1312.
Definition REG_BAUD_OFFSET : Z := 0x0F2C.
Definition REG_BAUD_LOW : Z := 0x2518.

Definition LCR_ENABLE_RX : Z := 0x80.
Definition LCR_ENABLE_TX : Z := 0x40.
Definition LCR_CS8 : Z := 0x03.

Definition SCL_DTR : Z := 0x20.
Definition SCL_RTS : Z := 0x40.

(** ** The baud-rate encoder: the computation of [setBaudRate] *)

(** Decimal rendering of an integer, for the template string of the error. *)
Definition show_int (z : Z) : string :=
  NilZero.string_of_int (Z.to_int z).

(** [new Error(`unsupported baud rate ${baudRate}`)] *)
Definition UnsupportedBaudRate (baudRate : Z) : JsValue :=
  JsError ("unsupported baud rate " ++ show_int baudRate)%string.

Definition baseFactor : Z := 1532620800.
Definition divmax : Z := 3.

(** The variables of the loop: [factor] and [divisor]. *)
Definition LoopVars : Type := JS.number * JS.number.

(** [(factor > 0xfff0) && divisor > 0] *)
Definition loop_cond (v : LoopVars) : bool :=
  JS.gt (fst v) (JS.of_int 0xfff0) && JS.gt (snd v) (JS.of_int 0).

(** [factor >>= 3; divisor--;] *)
Definition loop_body (v : LoopVars) : LoopVars :=
  (JS.of_int (JS.sar (fst v) 3), JS.sub (snd v) (JS.of_int 1)).

(** A [while] loop that may not terminate: [fuel] bounds the number of
    times the body runs, [None] means the bound was hit.  The result
    carries the number of iterations made. *)
Fixpoint while_loop (fuel : nat) (v : LoopVars) : option (LoopVars * nat) :=
  if loop_cond v then
    match fuel with
    | O => None
    | S fuel' =>
        match while_loop fuel' (loop_body v) with
        | Some (v', n) => Some (v', S n)
        | None => None
        end
    end
  else Some (v, O).

(** The tail of [setBaudRate] after [factor] and [divisor] are known:
    [divisor |= 0x0080; val1 = (factor & 0xff00) | divisor;
     val2 = (factor & 0xff)]. *)
Definition registerValues (factor divisor : JS.number) : Z * Z :=
  let divisor := JS.bor divisor (JS.of_int 0x0080) in
  let val1 := JS.bor (JS.of_int (JS.band factor (JS.of_int 0xff00)))
                     (JS.of_int divisor) in
  let val2 := JS.band factor (JS.of_int 0xff) in
  (val1, val2).

(** The computation of [setBaudRate] up to the two register writes. *)
Definition encode_fuel (fuel : nat) (baudRate : Z) : option (Outcome (Z * Z)) :=
  if baudRate =? 921600 then
    Some (Return (registerValues (JS.of_int 0xf300) (JS.of_int 7)))
  else
    let factor := JS.div (JS.of_int baseFactor) (JS.of_int baudRate) in
    let divisor := JS.of_int divmax in
    match while_loop fuel (factor, divisor) with
    | None => None
    | Some ((factor, divisor), _) =>
        if JS.gt factor (JS.of_int 0xfff0) then
          Some (Throw (UnsupportedBaudRate baudRate))
        else
          let factor := JS.sub (JS.of_int 0x10000) factor in
          Some (Return (registerValues factor divisor))
    end.

(** The loop body can run at most [divmax] times (proved below), so that
    bound is all the fuel the encoder needs; the [None] branch is never
    taken. *)
Definition loop_bound : nat := 3.

Definition encodeBaudRate (baudRate : Z) : Outcome (Z * Z) :=
  match encode_fuel loop_bound baudRate with
  | Some r => r
  | None => Throw JsUndefined
  end.

(** The encoder as section 4.1 of the specification words it, over the
    integers: the quotient is floored before anything else is done. *)
Module Spec.

Fixpoint shift_loop (fuel : nat) (factor0 divisor : Z) : option (Z * Z) :=
  if (0xFFF0 <? factor0) && (0 <? divisor) then
    match fuel with
    | O => None
    | S fuel' => shift_loop fuel' (Z.shiftr factor0 3) (divisor - 1)
    end
  else Some (factor0, divisor).

Definition outputs (factor divisor : Z) : Z * Z :=
  let divisor := Z.lor divisor 0x0080 in
  (Z.lor (Z.land factor 0xFF00) divisor, Z.land factor 0x00FF).

Definition encode (fuel : nat) (bitrate : Z) : option (Outcome (Z * Z)) :=
  if bitrate =? 921600 then Some (Return (outputs 0xF300 7))
  else
    match shift_loop fuel (1532620800 / bitrate) 3 with
    | None => None
    | Some (factor0, divisor) =>
        if 0xFFF0 <? factor0 then Some (Throw (UnsupportedBaudRate bitrate))
        else Some (Return (outputs (0x10000 - factor0) divisor))
    end.

End Spec.
(** ** Strings *)

(** [s.indexOf(needle)]: the first position where [needle] occurs in [s],
    or -1. *)
Fixpoint indexOf_from (needle s : string) (i : Z) : Z :=
  if String.prefix needle s then i
  else match s with
       | EmptyString => -1
       | String _ s' => indexOf_from needle s' (i + 1)
       end.

Definition indexOf (s needle : string) : Z := indexOf_from needle s 0.

(** A number used as a condition: every integer but 0 is truthy. *)
Definition truthy (z : Z) : bool := negb (z =? 0).

(** [error.message]: defined on error objects only. *)
Definition message_of (error : JsValue) : option string :=
  match error with
  | JsError m => Some m
  | _ => None
  end.

(** ** The USB transport *)

Inductive USBDirection := dir_in | dir_out | dir_other.
Inductive USBEndpointType := bulk | interrupt | isochronous.

Record USBEndpoint := {
  endpointNumber : Z;
  direction : USBDirection;
  endpointType : USBEndpointType;
  packetSize : Z
}.

Record USBInterface := {
  interfaceNumber : Z;
  alternate_endpoints : list USBEndpoint   (* iface.alternate.endpoints *)
}.

Record USBConfiguration := { interfaces : list USBInterface }.

(** Objects are compared by identity: the driver allocates its own, the
    transport hands out its own. *)
Inductive ObjectId :=
| HostObject (n : nat)
| TransportObject (n : nat).

Definition same_object (a b : ObjectId) : bool :=
  match a, b with
  | HostObject n, HostObject m => Nat.eqb n m
  | TransportObject n, TransportObject m => Nat.eqb n m
  | _, _ => false
  end.

(** An ArrayBuffer or typed array: an identity and its bytes. *)
Record Buffer := { ident : ObjectId; content : list Z }.

Definition byteLength (b : Buffer) : Z := Z.of_nat (List.length (content b)).

(** The DataView of a transfer result: the buffer it views and its own
    length. *)
Record DataView := { buffer : Buffer; view_byteLength : Z }.

Inductive USBTransferStatus := status_ok | status_stall | status_babble.

Record USBInTransferResult := {
  status : USBTransferStatus;
  data : option DataView
}.

Record USBOutTransferResult := {
  out_status : USBTransferStatus;
  bytesWritten : Z
}.

(** The calls the driver makes on the device. *)
Inductive Call :=
| device_open
| device_close
| claimInterface (interfaceNumber : Z)
| releaseInterface (interfaceNumber : Z)
| controlTransferOut (request value index : Z)
| controlTransferIn (request value index length : Z)
| transferIn (endpointNumber length : Z)
| transferOut (endpointNumber : Z) (data : list Z).

(** A settled promise. *)
Inductive Settled (A : Type) :=
| Resolved (a : A)
| Rejected (reason : JsValue).
Arguments Resolved {A} a.
Arguments Rejected {A} reason.

(** The device: how it settles each call and what its attributes read,
    given the calls made before. *)
Record USBDevice := {
  settles : list Call -> Call -> Settled unit;
  settles_in : list Call -> Call -> Settled USBInTransferResult;
  opened : list Call -> bool;
  configuration : list Call -> option USBConfiguration
}.

(** ** The driver object and the world it runs in *)

Record CH34xUsbSerial := {
  isClosing : bool;
  bitrate : Z;
  readEndpoint : option USBEndpoint;
  writeEndpoint : option USBEndpoint;
  dtr : bool;
  rts : bool
}.

(** [new CH34xUsbSerial(device, {baudRate})] *)
Definition constructor (baudRate : Z) : CH34xUsbSerial :=
  {| isClosing := false; bitrate := baudRate;
     readEndpoint := None; writeEndpoint := None;
     dtr := true; rts := true |}.

Inductive DriverEvent :=
| ev_ready
| ev_data (detail : list Z)
| ev_disconnected
| ev_error (detail : JsValue).

Inductive ConsoleLevel := c_log | c_debug | c_warn | c_error.

Record World := {
  this : CH34xUsbSerial;
  calls : list Call;                       (* transport calls, oldest first *)
  events : list DriverEvent;               (* dispatched events, oldest first *)
  console : list (ConsoleLevel * string);  (* console output, oldest first *)
  allocated : nat;                         (* objects created by the driver *)
  inFlight : nat                           (* bulk-in transfers not yet settled *)
}.

Definition new_world (baudRate : Z) : World :=
  {| this := constructor baudRate; calls := []; events := [];
     console := []; allocated := 0; inFlight := 0 |}.

(** ** Sequential programs with exceptions *)

Definition M (A : Type) : Type := World -> Outcome A * World.

Definition ret {A} (a : A) : M A := fun w => (Return a, w).

Definition bind {A B} (m : M A) (k : A -> M B) : M B :=
  fun w => match m w with
           | (Return a, w') => k a w'
           | (Throw e, w') => (Throw e, w')
           end.

Definition throw {A} (e : JsValue) : M A := fun w => (Throw e, w).

(** [try { m } catch (e) { h e }] and [p.catch(h)]. *)
Definition try_catch {A} (m : M A) (h : JsValue -> M A) : M A :=
  fun w => match m w with
           | (Return a, w') => (Return a, w')
           | (Throw e, w') => h e w'
           end.

(** [p.finally(f)]: [f] runs whatever [m] did; its own failure wins. *)
Definition try_finally {A} (m : M A) (f : M unit) : M A :=
  fun w => match m w with
           | (o, w') => match f w' with
                        | (Return _, w'') => (o, w'')
                        | (Throw e, w'') => (Throw e, w'')
                        end
           end.

Declare Scope js_scope.
Delimit Scope js_scope with js.
Notation "x <- m ;; k" := (bind m (fun x => k))
  (at level 61, m at next level, right associativity) : js_scope.
Notation "m ;; k" := (bind m (fun _ => k))
  (at level 61, right associativity) : js_scope.
Local Open Scope js_scope.

Definition get_this : M CH34xUsbSerial := fun w => (Return (this w), w).

Definition set_this (f : CH34xUsbSerial -> CH34xUsbSerial) : M unit :=
  fun w => (Return tt,
            {| this := f (this w); calls := calls w; events := events w;
               console := console w; allocated := allocated w;
               inFlight := inFlight w |}).

Definition set_isClosing (b : bool) (d : CH34xUsbSerial) : CH34xUsbSerial :=
  {| isClosing := b; bitrate := bitrate d; readEndpoint := readEndpoint d;
     writeEndpoint := writeEndpoint d; dtr := dtr d; rts := rts d |}.

Definition set_readEndpoint (ep : USBEndpoint) (d : CH34xUsbSerial) : CH34xUsbSerial :=
  {| isClosing := isClosing d; bitrate := bitrate d; readEndpoint := Some ep;
     writeEndpoint := writeEndpoint d; dtr := dtr d; rts := rts d |}.

Definition set_writeEndpoint (ep : USBEndpoint) (d : CH34xUsbSerial) : CH34xUsbSerial :=
  {| isClosing := isClosing d; bitrate := bitrate d; readEndpoint := readEndpoint d;
     writeEndpoint := Some ep; dtr := dtr d; rts := rts d |}.

Definition dispatchEvent (e : DriverEvent) : M unit :=
  fun w => (Return tt,
            {| this := this w; calls := calls w; events := events w ++ [e];
               console := console w; allocated := allocated w;
               inFlight := inFlight w |}).

Definition console_ (l : ConsoleLevel) (msg : string) : M unit :=
  fun w => (Return tt,
            {| this := this w; calls := calls w; events := events w;
               console := console w ++ [(l, msg)]; allocated := allocated w;
               inFlight := inFlight w |}).

(** [new Uint8Array([...])]: a fresh object; each element is stored
    modulo 256. *)
Definition new_Uint8Array (elements : list Z) : M Buffer :=
  fun w => (Return {| ident := HostObject (allocated w);
                      content := map (fun x => x mod 256) elements |},
            {| this := this w; calls := calls w; events := events w;
               console := console w; allocated := S (allocated w);
               inFlight := inFlight w |}).

Definition record_call (c : Call) (w : World) : World :=
  {| this := this w; calls := calls w ++ [c]; events := events w;
     console := console w; allocated := allocated w; inFlight := inFlight w |}.

(** [await p]: the value of a resolved promise, or its reason thrown. *)
Definition await {A} (p : Settled A) : M A :=
  match p with
  | Resolved a => ret a
  | Rejected e => throw e
  end.

Fixpoint mapM {A B} (f : A -> M B) (l : list A) : M (list B) :=
  match l with
  | [] => ret []
  | a :: l' => b <- f a ;; bs <- mapM f l' ;; ret (b :: bs)
  end.

Fixpoint forEach {A} (f : A -> M unit) (l : list A) : M unit :=
  match l with
  | [] => ret tt
  | a :: l' => f a ;; forEach f l'
  end.

Coercion JS.of_int : Z >-> JS.number.

(** ** The methods of the driver *)

Section Driver.

Variable device : USBDevice.

(** A call on the device, giving the promise it returns, already
    settled. *)
Definition call (c : Call) : M (Settled unit) :=
  fun w => (Return (settles device (calls w) c), record_call c w).

Definition call_in (c : Call) : M (Settled USBInTransferResult) :=
  fun w => (Return (settles_in device (calls w) c), record_call c w).

(** A bulk-in transfer that is started and not awaited: its settlement
    comes back through [readLoop_settled]. *)
Definition submit_transferIn (endpointNumber length : Z) : M unit :=
  fun w => (Return tt,
            {| this := this w;
               calls := calls w ++ [transferIn endpointNumber length];
               events := events w; console := console w;
               allocated := allocated w; inFlight := S (inFlight w) |}).

Definition device_opened : M bool :=
  fun w => (Return (opened device (calls w)), w).

Definition device_configuration : M (option USBConfiguration) :=
  fun w => (Return (configuration device (calls w)), w).

Definition vendorOut (request value index : Z) : M unit :=
  p <- call (controlTransferOut request value index) ;;
  match p with
  | Resolved _ => console_ c_log "vendorOut success"
  | Rejected _ => console_ c_warn "vendorOut failed"
  end.

Definition vendorIn (request value index length : Z) : M USBInTransferResult :=
  p <- call_in (controlTransferIn request value index length) ;;
  await p.

Definition checkState (message : string) (request value : Z) (expected : Buffer)
  : M bool :=
  result <- vendorIn request value 0 (byteLength expected) ;;
  match status result, data result with
  | status_ok, Some result_data =>
      if negb (view_byteLength result_data =? byteLength expected) then
        console_ c_error "error sending command: unexpected length" ;;
        ret false
      else if negb (same_object (ident (buffer result_data)) (ident expected)) then
        (* todo: do we need byte-by-byte comparison? *)
        console_ c_error "error sending command: unexpected reply" ;;
        ret false
      else ret true
  | _, _ =>
      console_ c_error "failed to send" ;;
      ret false
  end.

Definition setBaudRate (baudRate : Z) : M unit :=
  match encodeBaudRate baudRate with
  | Throw e =>
      console_ c_error "unsupported baud rate" ;;
      throw e
  | Return (val1, val2) =>
      console_ c_debug "set baud rate" ;;
      vendorOut REQUEST_WRITE_REGISTRY REG_BAUD_FACTOR val1 ;;
      vendorOut REQUEST_WRITE_REGISTRY REG_BAUD_OFFSET val2
  end.

Definition setControlLines : M unit :=
  d <- get_this ;;
  vendorOut REG_MODEM_CTRL
    (JS.bnot (JS.bor (if dtr d then SCL_DTR else 0)
                     (if rts d then SCL_RTS else 0)))
    0.

Definition init : M unit :=
  let DEFAULT_BAUD_RATE := 9600 in
  (* these checkstate calls fail, but we're still able to communicate *)
  expected <- new_Uint8Array [-1; 0x00] ;;
  checkState "init 1" REQUEST_READ_VERSION 0 expected ;;
  vendorOut REQUEST_SERIAL_INITIATION 0 0 ;;

  setBaudRate DEFAULT_BAUD_RATE ;;
  expected <- new_Uint8Array [-1; 0x00] ;;
  checkState "init 4" REQUEST_READ_REGISTRY REG_BAUD_LOW expected ;;

  vendorOut REQUEST_WRITE_REGISTRY REG_BAUD_LOW
    (JS.bor (JS.bor LCR_ENABLE_TX LCR_ENABLE_RX) LCR_CS8) ;;
  expected <- new_Uint8Array [-1; -1] ;;
  checkState "init 6" REQUEST_READ_REGISTRY 0x0706 expected ;;

  vendorOut REQUEST_SERIAL_INITIATION 0x501f 0xd90a ;;
  setBaudRate DEFAULT_BAUD_RATE ;;

  setControlLines ;;
  expected <- new_Uint8Array [-1; -1] ;;
  checkState "init 10" REQUEST_READ_REGISTRY 0x0706 expected ;;
  ret tt.

(** [close]: the 2000 ms timer is not modelled, only what happens before
    and after it. *)
Definition close : M unit :=
  set_this (set_isClosing true) ;;
  dispatchEvent ev_disconnected ;;
  try_catch
    (p <- call (releaseInterface 0) ;; await p ;;
     p <- call device_close ;; await p)
    (fun err => console_ c_error "Error while closing" ;; throw err).

(** The part of [readLoop] that runs when it is called: it ends once the
    bulk-in transfer is started. *)
Definition readLoop : M unit :=
  d <- get_this ;;
  match readEndpoint d with
  | None =>
      console_ c_error "no read endpoint, aborting readLoop()" ;;
      close
  | Some ep => submit_transferIn (endpointNumber ep) (packetSize ep)
  end.

(** The [.then] callback of the transfer. *)
Definition readLoop_then (result : USBInTransferResult) : M unit :=
  match data result with
  | Some result_data =>
      if truthy (view_byteLength result_data) then
        console_ c_log "Received byte(s)" ;;
        dispatchEvent (ev_data (content (buffer result_data)))
      else console_ c_log "transferIn got no result, no result data, or data was empty"
  | None => console_ c_log "transferIn got no result, no result data, or data was empty"
  end.

(** The [.catch] callback of the transfer. *)
Definition readLoop_catch (error : JsValue) : M unit :=
  match message_of error with
  | None => throw (JsError "TypeError: error.message is undefined")
  | Some message =>
      if truthy (indexOf message "LIBUSB_TRANSFER_NO_DEVICE") then
        console_ c_warn "Device disconnected" ;;
        dispatchEvent ev_disconnected ;;
        set_this (set_isClosing true)
      else console_ c_error "Error reading data"
  end.

(** The [.finally] callback of the transfer. *)
Definition readLoop_finally : M unit :=
  d <- get_this ;;
  is_opened <- device_opened ;;
  if negb (isClosing d) && is_opened then readLoop else ret tt.

(** [.then(...).catch(...)] applied to the settled transfer. *)
Definition readLoop_handlers (settled : Settled USBInTransferResult) : M unit :=
  try_catch (result <- await settled ;; readLoop_then result) readLoop_catch.

(** What the promise chain of [readLoop] does when the transfer settles. *)
Definition readLoop_settled (settled : Settled USBInTransferResult) : M unit :=
  try_finally (readLoop_handlers settled) readLoop_finally.

Definition write (data : list Z) : M USBOutTransferResult :=
  d <- get_this ;;
  match writeEndpoint d with
  | None => throw (JsString "no writeEndpoint")
  | Some ep =>
      p <- call (transferOut (endpointNumber ep) data) ;;
      match p with
      | Resolved _ =>
          ret {| out_status := status_ok;
                 bytesWritten := Z.of_nat (List.length data) |}
      | Rejected err =>
          console_ c_error "error writing" ;;
          throw err
      end
  end.

(** [Promise.all(interfaces.map(async (iface) => ...))]: every claim is
    issued before any of them is looked at. *)
Definition claim_all (ifaces : list USBInterface) : M unit :=
  ps <- mapM (fun iface =>
                console_ c_log "Claiming interface" ;;
                call (claimInterface (interfaceNumber iface))) ifaces ;;
  forEach (fun p => match p with
                    | Resolved _ => ret tt
                    | Rejected _ => console_ c_error "error claiming interface"
                    end) ps.

Definition assign_endpoint (endpoint : USBEndpoint) : M unit :=
  match endpointType endpoint with
  | bulk =>
      match direction endpoint with
      | dir_in => set_this (set_readEndpoint endpoint)
      | dir_out => set_this (set_writeEndpoint endpoint)
      | dir_other => console_ c_error "endpoint has unexpected direction"
      end
  | _ => console_ c_debug "ignoring non-bulk endpoint"
  end.

(** The body of the async arrow function inside [open]. *)
Definition open_body : M unit :=
  p <- call device_open ;; await p ;;
  config <- device_configuration ;;
  let interfaces := match config with
                    | Some c => interfaces c
                    | None => []
                    end in
  claim_all interfaces ;;
  match List.last (map Some interfaces) None with
  | None => throw (JsError "TypeError: dataInterface is undefined")
  | Some dataInterface =>
      forEach assign_endpoint (alternate_endpoints dataInterface) ;;
      init ;;
      d <- get_this ;;
      setBaudRate (bitrate d) ;;
      set_this (set_isClosing false) ;;
      readLoop ;;
      dispatchEvent ev_ready
  end.

Definition open : M unit :=
  try_catch open_body
    (fun error =>
       console_ c_log "Error during CH34x setup" ;;
       dispatchEvent (ev_error error)).

End Driver.

(** The NoWriteEndpoint failure of [write]. *)
Definition NoWriteEndpoint : JsValue := JsString "no writeEndpoint".

(** ** The driver over time *)

(** A bulk-in transfer settles: the promise chain of [readLoop] runs, if a
    transfer is in flight at all. *)
Definition bulk_in_settles (device : USBDevice)
  (settled : Settled USBInTransferResult) : M unit :=
  fun w =>
    match inFlight w with
    | O => (Return tt, w)
    | S n =>
        readLoop_settled device settled
          {| this := this w; calls := calls w; events := events w;
             console := console w; allocated := allocated w; inFlight := n |}
    end.

(** What can happen to a driver: a caller invokes one of its methods, or the
    pending bulk-in transfer settles. *)
Inductive Action :=
| do_open
| do_close
| do_write (data : list Z)
| do_setControlLines
| do_setBaudRate (baudRate : Z)
| do_vendorOut (request value index : Z)
| do_vendorIn (request value index length : Z)
| do_checkState (message : string) (request value : Z) (expected : Buffer)
| do_settle (settled : Settled USBInTransferResult)
| do_init        (* private, reached through open *)
| do_readLoop.   (* private, reached through open and the promise chain *)

Definition is_open (a : Action) : bool :=
  match a with
  | do_open => true
  | _ => false
  end.

Definition perform (device : USBDevice) (a : Action) (w : World) : World :=
  match a with
  | do_open => snd (open device w)
  | do_close => snd (close device w)
  | do_write data => snd (write device data w)
  | do_setControlLines => snd (setControlLines device w)
  | do_setBaudRate baudRate => snd (setBaudRate device baudRate w)
  | do_vendorOut request value index => snd (vendorOut device request value index w)
  | do_vendorIn request value index length =>
      snd (vendorIn device request value index length w)
  | do_checkState message request value expected =>
      snd (checkState device message request value expected w)
  | do_settle settled => snd (bulk_in_settles device settled w)
  | do_init => snd (init device w)
  | do_readLoop => snd (readLoop device w)
  end.

Definition run_actions (device : USBDevice) (l : list Action) (w : World) : World :=
  fold_left (fun w a => perform device a w) l w.

(** The read loop left to itself: one settlement after the other. *)
Definition readLoop_cycles (device : USBDevice)
  (l : list (Settled USBInTransferResult)) (w : World) : World :=
  run_actions device (map do_settle l) w.

(** ** Transcripts *)

(** The two register writes of [setBaudRate]. *)
Definition baud_writes (regs : Z * Z) : list Call :=
  [controlTransferOut REQUEST_WRITE_REGISTRY REG_BAUD_FACTOR (fst regs);
   controlTransferOut REQUEST_WRITE_REGISTRY REG_BAUD_OFFSET (snd regs)].

(** The value [setControlLines] sends for a driver. *)
Definition control_lines_value (d : CH34xUsbSerial) : Z :=
  JS.bnot (JS.bor (if dtr d then SCL_DTR else 0) (if rts d then SCL_RTS else 0)).

(** The calls of a complete run of [init] on driver [d], step by step. *)
Definition init_script (d : CH34xUsbSerial) : list Call :=
  [controlTransferIn REQUEST_READ_VERSION 0 0 2]                    (* 1 *)
  ++ [controlTransferOut REQUEST_SERIAL_INITIATION 0 0]             (* 2 *)
  ++ baud_writes (0xB282, 0x0C)                                     (* 3 *)
  ++ [controlTransferIn REQUEST_READ_REGISTRY REG_BAUD_LOW 0 2]     (* 4 *)
  ++ [controlTransferOut REQUEST_WRITE_REGISTRY REG_BAUD_LOW 0xC3]  (* 5 *)
  ++ [controlTransferIn REQUEST_READ_REGISTRY 0x0706 0 2]           (* 6 *)
  ++ [controlTransferOut REQUEST_SERIAL_INITIATION 0x501F 0xD90A]   (* 7 *)
  ++ baud_writes (0xB282, 0x0C)                                     (* 8 *)
  ++ [controlTransferOut REG_MODEM_CTRL (control_lines_value d) 0]  (* 9 *)
  ++ [controlTransferIn REQUEST_READ_REGISTRY 0x0706 0 2].          (* 10 *)

(** A device seen through a filter on the replies of its control-IN
    transfers. *)
Definition map_replies (g : USBInTransferResult -> USBInTransferResult)
  (device : USBDevice) : USBDevice :=
  {| settles := settles device;
     settles_in := fun h c => match settles_in device h c with
                              | Resolved r => Resolved (g r)
                              | Rejected e => Rejected e
                              end;
     opened := opened device;
     configuration := configuration device |}.

(** A device whose control-IN transfers always resolve: where [device]
    rejects one, [fallback] is the reply. *)
Definition resolving (fallback : USBInTransferResult) (device : USBDevice)
  : USBDevice :=
  {| settles := settles device;
     settles_in := fun h c => match settles_in device h c with
                              | Resolved r => Resolved r
                              | Rejected _ => Resolved fallback
                              end;
     opened := opened device;
     configuration := configuration device |}.

(** Replace the bytes of a reply, keeping its status, its length and the
    identity of its buffer. *)
Definition with_content (f : list Z -> list Z) (r : USBInTransferResult)
  : USBInTransferResult :=
  {| status := status r;
     data := match data r with
             | Some d => Some {| buffer := {| ident := ident (buffer d);
                                              content := f (content (buffer d)) |};
                                 view_byteLength := view_byteLength d |}
             | None => None
             end |}.

(** ** Sample devices *)

Definition sample_endpoints : list USBEndpoint :=
  [ {| endpointNumber := 2; direction := dir_in; endpointType := bulk; packetSize := 32 |};
    {| endpointNumber := 2; direction := dir_out; endpointType := bulk; packetSize := 32 |};
    {| endpointNumber := 1; direction := dir_in; endpointType := interrupt; packetSize := 8 |} ].

Definition sample_configuration : USBConfiguration :=
  {| interfaces := [ {| interfaceNumber := 0; alternate_endpoints := sample_endpoints |} ] |}.

Definition sample_reply : USBInTransferResult :=
  {| status := status_ok;
     data := Some {| buffer := {| ident := TransportObject 0; content := [0x31; 0x00] |};
                     view_byteLength := 2 |} |}.

(** A device on which every transfer succeeds. *)
Definition healthy_device : USBDevice :=
  {| settles := fun _ _ => Resolved tt;
     settles_in := fun _ _ => Resolved sample_reply;
     opened := fun _ => true;
     configuration := fun _ => Some sample_configuration |}.

(** A device that opens, and then rejects every control-IN transfer. *)
Definition unplugged_device : USBDevice :=
  {| settles := fun _ _ => Resolved tt;
     settles_in := fun _ _ => Rejected (JsError "NetworkError: The device was disconnected.");
     opened := fun _ => true;
     configuration := fun _ => Some sample_configuration |}.

(** A device that rejects the reads of the status register 0x0706 and
    answers everything else. *)
Definition status_read_rejecting_device : USBDevice :=
  {| settles := fun _ _ => Resolved tt;
     settles_in := fun _ c =>
       match c with
       | controlTransferIn request value _ _ =>
           if (request =? REQUEST_READ_REGISTRY) && (value =? 0x0706)
           then Rejected (JsError "NetworkError: A transfer error has occurred.")
           else Resolved sample_reply
       | _ => Resolved sample_reply
       end;
     opened := fun _ => true;
     configuration := fun _ => Some sample_configuration |}.

(** A driver whose read loop is running on [healthy_device]. *)
Definition running_world : World := snd (open healthy_device (new_world 9600)).

(** ** Vocabulary of the proofs *)

(** The loop started with [divisor = d] stops within [d] iterations, given
    that decrementing [d] that many times reaches 0 in binary64. *)
Definition stops_within (d : Z) (bound : nat) : Prop :=
  forall (extra : nat) (factor : JS.number),
  exists v n,
    while_loop (bound + extra) (factor, JS.of_int d) = Some (v, n)
    /\ (n <= bound)%nat
    /\ loop_cond v = false.

(** The usual serial rates. *)
Definition standard_rates : list Z :=
  [50; 75; 110; 134; 150; 300; 600; 1200; 1800; 2400; 4800; 9600; 14400;
   19200; 38400; 57600; 115200; 230400; 460800; 921600].

(** Equality test on the results of the two encoders. *)
Definition same_value (a b : JsValue) : bool :=
  match a, b with
  | JsError m, JsError m' => String.eqb m m'
  | JsString m, JsString m' => String.eqb m m'
  | JsUndefined, JsUndefined => true
  | _, _ => false
  end.

Definition same_result (a b : option (Outcome (Z * Z))) : bool :=
  match a, b with
  | Some (Return (a1, a2)), Some (Return (b1, b2)) => (a1 =? b1) && (a2 =? b2)
  | Some (Throw e), Some (Throw e') => same_value e e'
  | None, None => true
  | _, _ => false
  end.

(** [m] keeps a property of the driver object. *)
Definition keeps (P : CH34xUsbSerial -> Prop) {A} (m : M A) : Prop :=
  forall w, P (this w) -> P (this (snd (m w))).

(** The assignment [f] to the driver object respects [P]. *)
Definition stable (P : CH34xUsbSerial -> Prop) (f : CH34xUsbSerial -> CH34xUsbSerial) : Prop :=
  forall d, P d -> P (f d).

(** From [w] to [w'] the driver object, the events and the transfers in
    flight are untouched, and exactly the calls [cs] were made. *)
Definition advanced (w w' : World) (cs : list Call) : Prop :=
  this w' = this w /\ events w' = events w /\ inFlight w' = inFlight w
  /\ calls w' = calls w ++ cs.

(** The last call of history [h] is a transfer that the device rejected
    with [e]. *)
Definition rejected_last (device : USBDevice) (h : list Call) (e : JsValue) : Prop :=
  exists pre c, h = pre ++ [c] /\ settles_in device pre c = Rejected e.

(** [m] makes the calls of [script] in order; it stops early only by
    throwing the rejection of the call it made last. *)
Definition follows (device : USBDevice) (script : CH34xUsbSerial -> list Call)
  {A} (m : M A) : Prop :=
  forall w,
    match m w with
    | (Return _, w') => advanced w w' (script (this w))
    | (Throw e, w') =>
        exists n, advanced w w' (firstn n (script (this w)))
                  /\ rejected_last device (calls w') e
    end.

(** [m] always returns, with a value satisfying [Q], and makes no call. *)
Definition returns_with {A} (Q : A -> Prop) (m : M A) : Prop :=
  forall w, exists a w', m w = (Return a, w') /\ Q a /\ advanced w w' [].

(** The length of the data of a reply, when it has data. *)
Definition reply_length (r : USBInTransferResult) : option Z :=
  option_map view_byteLength (data r).

(** The interfaces [open] claims: those of the configuration read once the
    device is open. *)
Definition claimed_interfaces (device : USBDevice) (w : World) : list USBInterface :=
  match configuration device (calls w ++ [device_open]) with
  | Some c => interfaces c
  | None => []
  end.

Definition claim_calls (ifaces : list USBInterface) : list Call :=
  map (fun iface => claimInterface (interfaceNumber iface)) ifaces.

(** The rates 1 to 46 and the values of a byte, for case-by-case checks. *)
Definition low_rates : list Z := map Z.of_nat (seq 1 46).
Definition byte_values : list Z := map Z.of_nat (seq 0 256).

(** A bulk endpoint of direction [d]. *)
Definition is_bulk_toward (d : USBDirection) (ep : USBEndpoint) : bool :=
  match endpointType ep, direction ep, d with
  | bulk, dir_in, dir_in => true
  | bulk, dir_out, dir_out => true
  | _, _, _ => false
  end.

(** The last bulk endpoint of direction [d] in a list of endpoints. *)
Definition last_bulk (d : USBDirection) (eps : list USBEndpoint) : option USBEndpoint :=
  find (is_bulk_toward d) (rev eps).

Definition or_else {A} (o o' : option A) : option A :=
  match o with
  | Some a => Some a
  | None => o'
  end.

(** The buffers in the replies of the device are objects of the transport,
    never objects the driver created. *)
Definition transport_owned (device : USBDevice) : Prop :=
  forall h c r d,
    settles_in device h c = Resolved r -> data r = Some d ->
    exists n, ident (buffer d) = TransportObject n.

(** The bulk-in transfer the read loop submits for endpoint [ep] when
    [resubmit] holds. *)
Definition next_transfer (resubmit : bool) (ep : USBEndpoint) : list Call :=
  if resubmit then [transferIn (endpointNumber ep) (packetSize ep)] else [].

(** [m] only adds calls to the history. *)
Definition grows {A} (m : M A) : Prop :=
  forall w, exists cs, calls (snd (m w)) = calls w ++ cs.

(** What [open] does once the endpoints are assigned: the last five
    statements of its arrow function. *)
Definition open_rest (device : USBDevice) : M unit :=
  init device ;;
  d <- get_this ;;
  setBaudRate device (bitrate d) ;;
  set_this (set_isClosing false) ;;
  readLoop device ;;
  dispatchEvent ev_ready.

(** * Properties *)

(** ** The baud-rate encoder *)

Lemma while_loop_unfold (fuel : nat) (v : LoopVars) :
  while_loop fuel v =
  if loop_cond v then
    match fuel with
    | O => None
    | S fuel' =>
        match while_loop fuel' (loop_body v) with
        | Some (v', n) => Some (v', S n)
        | None => None
        end
    end
  else Some (v, O).
Proof. destruct fuel; reflexivity. Qed.

Lemma stops_within_0 : stops_within 0 0.
Proof.
  intros extra factor. exists (factor, JS.of_int 0), O.
  assert (Hc : loop_cond (factor, JS.of_int 0) = false).
  { unfold loop_cond. cbn [fst snd].
    replace (JS.gt (JS.of_int 0) (JS.of_int 0)) with false by reflexivity.
    apply andb_false_r. }
  rewrite while_loop_unfold, Hc. auto.
Qed.

Lemma stops_within_S (d : Z) (bound : nat) :
  JS.sub (JS.of_int (d + 1)) (JS.of_int 1) = JS.of_int d ->
  stops_within d bound -> stops_within (d + 1) (S bound).
Proof.
  intros Hdec IH extra factor.
  rewrite while_loop_unfold.
  destruct (loop_cond (factor, JS.of_int (d + 1))) eqn:Hc.
  - cbn [Nat.add]. unfold loop_body. cbn [fst snd]. rewrite Hdec.
    destruct (IH extra (JS.of_int (JS.sar factor 3))) as (v & n & Hrun & Hn & Hv).
    rewrite Hrun. exists v, (S n). repeat split; [lia | exact Hv].
  - exists (factor, JS.of_int (d + 1)), O. repeat split; [lia | exact Hc].
Qed.

Lemma stops_within_divmax : stops_within divmax loop_bound.
Proof.
  change divmax with (0 + 1 + 1 + 1). unfold loop_bound.
  repeat (apply stops_within_S; [reflexivity |]).
  exact stops_within_0.
Qed.

Lemma while_loop_more_fuel (fuel : nat) :
  forall v r, while_loop fuel v = Some r ->
  forall extra, while_loop (fuel + extra) v = Some r.
Proof.
  induction fuel as [|fuel IH]; intros v r Hr extra;
    rewrite while_loop_unfold in Hr; rewrite while_loop_unfold;
    cbn [Nat.add]; destruct (loop_cond v); try discriminate; try exact Hr.
  destruct (while_loop fuel (loop_body v)) as [[v' m]|] eqn:Hin; [| discriminate].
  rewrite (IH _ _ Hin extra). exact Hr.
Qed.

(** C2. For every bitrate (the positive integers included) the encoder
    terminates: with any fuel of at least 3 the while loop comes to its
    end after at most 3 iterations, with its condition false; more fuel
    changes nothing; and the encoder then throws UnsupportedBaudRate
    exactly when the factor is still above 0xfff0 after the loop. *)
Theorem setBaudRate_loop_terminates (baudRate : Z) (extra : nat) :
  exists v n,
    while_loop (loop_bound + extra)
      (JS.div (JS.of_int baseFactor) (JS.of_int baudRate), JS.of_int divmax)
    = Some (v, n)
    /\ (n <= 3)%nat
    /\ loop_cond v = false
    /\ encode_fuel (loop_bound + extra) baudRate = Some (encodeBaudRate baudRate)
    /\ encodeBaudRate baudRate =
       if baudRate =? 921600 then Return (registerValues (JS.of_int 0xf300) (JS.of_int 7))
       else if JS.gt (fst v) (JS.of_int 0xfff0) then Throw (UnsupportedBaudRate baudRate)
       else Return (registerValues (JS.sub (JS.of_int 0x10000) (fst v)) (snd v)).
Proof.
  pose (factor := JS.div (JS.of_int baseFactor) (JS.of_int baudRate)).
  destruct (stops_within_divmax O factor) as (v & n & Hrun0 & Hn & Hv).
  rewrite Nat.add_0_r in Hrun0.
  pose proof (while_loop_more_fuel _ _ _ Hrun0 extra) as Hrun.
  exists v, n. fold factor. repeat split; try assumption;
    unfold encodeBaudRate, encode_fuel; fold factor;
    destruct (baudRate =? 921600); try reflexivity;
    rewrite ?Hrun, Hrun0; destruct v as [f d]; cbn [fst snd];
    destruct (JS.gt f (JS.of_int 0xfff0)); reflexivity.
Qed.

(** The failure of C2 does occur: at 1 baud the loop uses its three
    iterations and the factor is still too large. *)
Example setBaudRate_1_unsupported :
  while_loop loop_bound (JS.div (JS.of_int baseFactor) (JS.of_int 1), JS.of_int divmax)
  = Some ((JS.of_int 2993400, JS.of_int 0), 3%nat)
  /\ encodeBaudRate 1 = Throw (JsError "unsupported baud rate 1").
Proof. split; vm_compute; reflexivity. Qed.

(** C1. At 25000 baud the code and the algorithm of the specification
    disagree.  1532620800 / 25000 is 61304.832 in the code, which keeps the
    fraction: 0x10000 - 61304.832 = 4231.168, truncated by [&] to 4231 =
    0x1087.  The specification floors first: 0x10000 - 61304 = 4232 =
    0x1088.  The second register value is 0x87 instead of 0x88. *)
Theorem setBaudRate_keeps_fraction_at_25000 :
  encodeBaudRate 25000 = Return (0x1083, 0x87)
  /\ Spec.encode 3 25000 = Some (Return (0x1083, 0x88))
  /\ calls (snd (setBaudRate healthy_device 25000 (new_world 25000)))
     = [controlTransferOut REQUEST_WRITE_REGISTRY REG_BAUD_FACTOR 0x1083;
        controlTransferOut REQUEST_WRITE_REGISTRY REG_BAUD_OFFSET 0x87].
Proof. repeat split; vm_compute; reflexivity. Qed.

Lemma same_result_eq (a b : option (Outcome (Z * Z))) :
  same_result a b = true -> a = b.
Proof.
  destruct a as [[[a1 a2]|e]|], b as [[[b1 b2]|e']|]; cbn; try discriminate;
    try reflexivity.
  - intros H. apply andb_true_iff in H. destruct H as [H1 H2].
    apply Z.eqb_eq in H1, H2. subst. reflexivity.
  - destruct e, e'; cbn; try discriminate; try reflexivity;
      intros H; apply String.eqb_eq in H; subst; reflexivity.
Qed.

(** Where the quotient is an integer, or the loop shifts it at least once
    (the shift truncates), nothing is lost: the usual rates, and the odd
    ones below 23392 baud tried here, get the values of the
    specification. *)
Lemma setBaudRate_standard_rates :
  forallb (fun b => same_result (encode_fuel loop_bound b) (Spec.encode 3 b))
    (standard_rates ++ [1; 45; 46; 100; 1000; 12345; 23391]) = true.
Proof. vm_compute. reflexivity. Qed.

(** ** What the methods leave alone in the driver object *)

Section Keeps.

Variable P : CH34xUsbSerial -> Prop.
Variable device : USBDevice.

Lemma keeps_ret {A} (a : A) : keeps P (ret a).
Proof. intros w H. exact H. Qed.

Lemma keeps_throw {A} (e : JsValue) : keeps P (@throw A e).
Proof. intros w H. exact H. Qed.

Lemma keeps_bind {A B} (m : M A) (k : A -> M B) :
  keeps P m -> (forall a, keeps P (k a)) -> keeps P (bind m k).
Proof.
  intros Hm Hk w H. unfold bind. specialize (Hm w H).
  destruct (m w) as [[a|e] w1]; cbn [snd] in *; [apply Hk |]; exact Hm.
Qed.

Lemma keeps_try_catch {A} (m : M A) (h : JsValue -> M A) :
  keeps P m -> (forall e, keeps P (h e)) -> keeps P (try_catch m h).
Proof.
  intros Hm Hh w H. unfold try_catch. specialize (Hm w H).
  destruct (m w) as [[a|e] w1]; cbn [snd] in *; [| apply Hh]; exact Hm.
Qed.

Lemma keeps_try_finally {A} (m : M A) (f : M unit) :
  keeps P m -> keeps P f -> keeps P (try_finally m f).
Proof.
  intros Hm Hf w H. unfold try_finally. specialize (Hm w H).
  destruct (m w) as [o w1]. cbn [snd] in Hm. specialize (Hf w1 Hm).
  destruct (f w1) as [[u|e] w2]; exact Hf.
Qed.

Lemma keeps_mapM {A B} (f : A -> M B) (l : list A) :
  (forall a, keeps P (f a)) -> keeps P (mapM f l).
Proof.
  intros Hf. induction l as [|a l IH]; cbn [mapM].
  - apply keeps_ret.
  - apply keeps_bind; [apply Hf | intros b].
    apply keeps_bind; [exact IH | intros bs; apply keeps_ret].
Qed.

Lemma keeps_forEach {A} (f : A -> M unit) (l : list A) :
  (forall a, keeps P (f a)) -> keeps P (forEach f l).
Proof.
  intros Hf. induction l as [|a l IH]; cbn [forEach].
  - apply keeps_ret.
  - apply keeps_bind; [apply Hf | intros _; exact IH].
Qed.

Lemma keeps_set_this (f : CH34xUsbSerial -> CH34xUsbSerial) :
  stable P f -> keeps P (set_this f).
Proof. intros Hf w H. apply Hf, H. Qed.

Lemma keeps_get_this : keeps P get_this.
Proof. intros w H. exact H. Qed.

Lemma keeps_dispatchEvent (e : DriverEvent) : keeps P (dispatchEvent e).
Proof. intros w H. exact H. Qed.

Lemma keeps_console (l : ConsoleLevel) (msg : string) : keeps P (console_ l msg).
Proof. intros w H. exact H. Qed.

Lemma keeps_new_Uint8Array (l : list Z) : keeps P (new_Uint8Array l).
Proof. intros w H. exact H. Qed.

Lemma keeps_await {A} (p : Settled A) : keeps P (await p).
Proof. destruct p; intros w H; exact H. Qed.

Lemma keeps_call (c : Call) : keeps P (call device c).
Proof. intros w H. exact H. Qed.

Lemma keeps_call_in (c : Call) : keeps P (call_in device c).
Proof. intros w H. exact H. Qed.

Lemma keeps_submit_transferIn (n len : Z) : keeps P (submit_transferIn n len).
Proof. intros w H. exact H. Qed.

Lemma keeps_device_opened : keeps P (device_opened device).
Proof. intros w H. exact H. Qed.

Lemma keeps_device_configuration : keeps P (device_configuration device).
Proof. intros w H. exact H. Qed.

End Keeps.

Create HintDb keeps.

#[local] Hint Resolve keeps_ret keeps_throw keeps_set_this keeps_get_this
  keeps_dispatchEvent keeps_console keeps_new_Uint8Array keeps_await
  keeps_call keeps_call_in keeps_submit_transferIn keeps_device_opened
  keeps_device_configuration : keeps.

(** Take a program apart along its binds, handlers and case distinctions. *)
Ltac keeps_step :=
  match goal with
  | |- keeps _ (bind _ _) => apply keeps_bind; [| intros ?]
  | |- keeps _ (try_catch _ _) => apply keeps_try_catch; [| intros ?]
  | |- keeps _ (try_finally _ _) => apply keeps_try_finally
  | |- keeps _ (mapM _ _) => apply keeps_mapM; intros ?
  | |- keeps _ (forEach _ _) => apply keeps_forEach; intros ?
  | |- keeps _ (match ?x with _ => _ end) => destruct x
  | |- keeps _ (if ?x then _ else _) => destruct x
  | |- keeps _ (let '(_, _) := ?x in _) => destruct x
  | |- keeps _ _ => solve [auto with keeps]
  end.

Ltac keeps_all := repeat keeps_step.

Section KeepsMethods.

Variable P : CH34xUsbSerial -> Prop.
Variable device : USBDevice.

Lemma keeps_vendorOut request value index :
  keeps P (vendorOut device request value index).
Proof. unfold vendorOut. keeps_all. Qed.

Lemma keeps_vendorIn request value index length :
  keeps P (vendorIn device request value index length).
Proof. unfold vendorIn. keeps_all. Qed.

Lemma keeps_checkState message request value expected :
  keeps P (checkState device message request value expected).
Proof.
  unfold checkState. apply keeps_bind; [apply keeps_vendorIn | intros r].
  keeps_all.
Qed.

Lemma keeps_setBaudRate baudRate : keeps P (setBaudRate device baudRate).
Proof.
  unfold setBaudRate. destruct (encodeBaudRate baudRate) as [[val1 val2]|e].
  - apply keeps_bind; [auto with keeps | intros _].
    apply keeps_bind; [apply keeps_vendorOut | intros _; apply keeps_vendorOut].
  - keeps_all.
Qed.

Lemma keeps_setControlLines : keeps P (setControlLines device).
Proof.
  unfold setControlLines. apply keeps_bind; [auto with keeps | intros d].
  apply keeps_vendorOut.
Qed.

Lemma keeps_write data : keeps P (write device data).
Proof. unfold write. keeps_all. Qed.

Lemma keeps_init : keeps P (init device).
Proof.
  unfold init. cbv zeta.
  repeat lazymatch goal with
    | |- keeps _ (checkState _ _ _ _ _) => apply keeps_checkState
    | |- keeps _ (vendorOut _ _ _ _) => apply keeps_vendorOut
    | |- keeps _ (setBaudRate _ _) => apply keeps_setBaudRate
    | |- keeps _ (setControlLines _) => apply keeps_setControlLines
    | |- keeps _ (bind _ _) => apply keeps_bind; [| intros ?]
    | |- keeps _ _ => solve [auto with keeps]
    end.
Qed.

Lemma keeps_claim_all ifaces : keeps P (claim_all device ifaces).
Proof. unfold claim_all. keeps_all. Qed.

Hypothesis closing_stable : stable P (set_isClosing true).

Lemma keeps_close : keeps P (close device).
Proof. unfold close. keeps_all. Qed.

Lemma keeps_readLoop : keeps P (readLoop device).
Proof.
  unfold readLoop. apply keeps_bind; [auto with keeps | intros d].
  destruct (readEndpoint d); [auto with keeps |].
  apply keeps_bind; [auto with keeps | intros _; apply keeps_close].
Qed.

Lemma keeps_readLoop_settled settled : keeps P (readLoop_settled device settled).
Proof.
  unfold readLoop_settled, readLoop_handlers, readLoop_then, readLoop_catch,
    readLoop_finally.
  apply keeps_try_finally.
  - keeps_all.
  - apply keeps_bind; [auto with keeps | intros d].
    apply keeps_bind; [auto with keeps | intros o].
    destruct (negb (isClosing d) && o); [apply keeps_readLoop | auto with keeps].
Qed.

Lemma keeps_bulk_in_settles settled : keeps P (bulk_in_settles device settled).
Proof.
  intros w H. unfold bulk_in_settles. destruct (inFlight w); [exact H |].
  apply keeps_readLoop_settled. exact H.
Qed.

(** Every action but [open] keeps [P]. *)
Lemma keeps_perform (a : Action) (w : World) :
  is_open a = false -> P (this w) -> P (this (perform device a w)).
Proof.
  intros Ha H. destruct a; try discriminate Ha; cbn [perform].
  - apply keeps_close, H.
  - apply keeps_write, H.
  - apply keeps_setControlLines, H.
  - apply keeps_setBaudRate, H.
  - apply keeps_vendorOut, H.
  - apply keeps_vendorIn, H.
  - apply keeps_checkState, H.
  - apply keeps_bulk_in_settles, H.
  - apply keeps_init, H.
  - apply keeps_readLoop, H.
Qed.

Hypothesis opening_stable : stable P (set_isClosing false).
Hypothesis readEndpoint_stable : forall ep, stable P (set_readEndpoint ep).
Hypothesis writeEndpoint_stable : forall ep, stable P (set_writeEndpoint ep).

Lemma keeps_open : keeps P (open device).
Proof.
  assert (Hassign : forall ep, keeps P (assign_endpoint ep))
    by (intros ep; unfold assign_endpoint; keeps_all).
  unfold open, open_body.
  apply keeps_try_catch; [| intros e; keeps_all].
  repeat lazymatch goal with
    | |- keeps _ (claim_all _ _) => apply keeps_claim_all
    | |- keeps _ (init _) => apply keeps_init
    | |- keeps _ (setBaudRate _ _) => apply keeps_setBaudRate
    | |- keeps _ (readLoop _) => apply keeps_readLoop
    | |- keeps _ (forEach assign_endpoint _) => apply keeps_forEach, Hassign
    | |- keeps _ _ => keeps_step
    end.
Qed.

(** Every action keeps a property that all assignments respect. *)
Lemma keeps_any_action (a : Action) (w : World) :
  P (this w) -> P (this (perform device a w)).
Proof.
  intros H. destruct (is_open a) eqn:Ha.
  - destruct a; try discriminate Ha. apply keeps_open, H.
  - apply keeps_perform; assumption.
Qed.

End KeepsMethods.

Lemma run_actions_invariant (P : CH34xUsbSerial -> Prop) (device : USBDevice)
  (allowed : Action -> bool) :
  (forall a w, allowed a = true -> P (this w) -> P (this (perform device a w))) ->
  forall l w, P (this w) ->
  P (this (run_actions device (filter allowed l) w)).
Proof.
  intros Hstep. unfold run_actions.
  induction l as [|a l IH]; intros w H; cbn [filter]; [exact H |].
  destruct (allowed a) eqn:Ha; [| apply IH, H].
  cbn [fold_left]. apply IH, Hstep; assumption.
Qed.

Lemma filter_all {A} (l : list A) : filter (fun _ => true) l = l.
Proof. induction l as [|a l IH]; cbn; [| rewrite IH]; reflexivity. Qed.

(** ** Control lines *)

Lemma setControlLines_run (device : USBDevice) (w : World) :
  fst (setControlLines device w) = Return tt
  /\ advanced w (snd (setControlLines device w))
       [controlTransferOut REG_MODEM_CTRL (control_lines_value (this w)) 0].
Proof.
  unfold setControlLines, vendorOut, bind, get_this, call, control_lines_value.
  cbn [fst snd]. destruct (settles device (calls w) _); cbn; repeat split.
Qed.

(** C10. Whatever is done to a driver after its construction (any sequence
    of method calls, public or private, and of bulk-in settlements), [dtr]
    and [rts] are still true; so [setControlLines] always sends the same
    value, the complement of SCL_DTR | SCL_RTS = 0x60, in its one control
    transfer. *)
Theorem control_lines_never_change (device : USBDevice) (baudRate : Z)
  (actions : list Action) :
  let w := run_actions device actions (new_world baudRate) in
  dtr (this w) = true
  /\ rts (this w) = true
  /\ control_lines_value (this w) = Z.lnot (Z.lor SCL_DTR SCL_RTS)
  /\ Z.lnot (Z.lor SCL_DTR SCL_RTS) = Z.lnot 0x60
  /\ calls (snd (setControlLines device w))
     = calls w ++ [controlTransferOut REG_MODEM_CTRL (Z.lnot 0x60) 0].
Proof.
  intros w.
  assert (H : dtr (this w) = true /\ rts (this w) = true).
  { subst w. rewrite <- (filter_all actions).
    apply (run_actions_invariant (fun d => dtr d = true /\ rts d = true)).
    - intros a w0 _ H0. apply keeps_any_action; try exact H0;
        intros; intros d Hd; exact Hd.
    - split; reflexivity. }
  destruct H as [Hd Hr].
  assert (Hv : control_lines_value (this w) = Z.lnot (Z.lor SCL_DTR SCL_RTS)).
  { unfold control_lines_value. rewrite Hd, Hr. reflexivity. }
  repeat split; try assumption.
  destruct (setControlLines_run device w) as [_ (_ & _ & _ & Hc)].
  rewrite Hc, Hv. reflexivity.
Qed.

(** ** write *)

(** C9. Without a write endpoint [write] rejects with NoWriteEndpoint and
    makes no call on the transport; with one it makes exactly one bulk-out
    transfer, resolves with the byte count of the data when the transfer
    resolves and rejects with the transport's error when it rejects.  The
    write endpoint is unassigned in every driver on which [open] was never
    called. *)
Theorem write_one_transfer_or_NoWriteEndpoint (device : USBDevice)
  (data : list Z) (w : World) (baudRate : Z) (actions : list Action) :
  let run := write device data w in
  match writeEndpoint (this w) with
  | None => fst run = Throw NoWriteEndpoint /\ calls (snd run) = calls w
  | Some ep =>
      calls (snd run) = calls w ++ [transferOut (endpointNumber ep) data]
      /\ fst run =
         match settles device (calls w) (transferOut (endpointNumber ep) data) with
         | Resolved _ => Return {| out_status := status_ok;
                                   bytesWritten := Z.of_nat (List.length data) |}
         | Rejected err => Throw err
         end
  end
  /\ writeEndpoint
       (this (run_actions device (filter (fun a => negb (is_open a)) actions)
                (new_world baudRate))) = None.
Proof.
  intros run. split.
  - subst run. unfold write, bind, get_this, call. cbn [fst snd].
    destruct (writeEndpoint (this w)) as [ep|]; [| split; reflexivity].
    cbn [fst snd record_call calls].
    destruct (settles device (calls w) _); split; reflexivity.
  - apply (run_actions_invariant (fun d => writeEndpoint d = None)).
    + intros a w0 Ha H0. apply keeps_perform; try exact H0.
      * intros d Hd; exact Hd.
      * destruct (is_open a); [discriminate | reflexivity].
    + reflexivity.
Qed.

(** ** Transcripts of the register operations *)

Lemma bind_run {A B} (m : M A) (k : A -> M B) (w : World) (a : A) (w1 : World) :
  m w = (Return a, w1) -> bind m k w = k a w1.
Proof. intros H. unfold bind. rewrite H. reflexivity. Qed.

Lemma bind_throws {A B} (m : M A) (k : A -> M B) (w : World) (e : JsValue)
  (w1 : World) :
  m w = (Throw e, w1) -> bind m k w = (Throw e, w1).
Proof. intros H. unfold bind. rewrite H. reflexivity. Qed.

Lemma advanced_refl (w : World) : advanced w w [].
Proof. unfold advanced. rewrite app_nil_r. auto. Qed.

Lemma advanced_trans (w w1 w2 : World) (cs1 cs2 : list Call) :
  advanced w w1 cs1 -> advanced w1 w2 cs2 -> advanced w w2 (cs1 ++ cs2).
Proof.
  intros (Ht & He & Hi & Hc) (Ht' & He' & Hi' & Hc'). unfold advanced.
  rewrite Ht', He', Hi', Hc', Hc, app_assoc. auto.
Qed.

Lemma firstn_of_left {A} (n : nat) (l1 l2 : list A) :
  exists n', firstn n l1 = firstn n' (l1 ++ l2).
Proof.
  destruct (Nat.le_gt_cases n (List.length l1)) as [Hle|Hgt].
  - exists n. rewrite firstn_app.
    replace (n - List.length l1)%nat with O by lia.
    cbn [firstn]. rewrite app_nil_r. reflexivity.
  - exists (List.length l1). rewrite firstn_app, Nat.sub_diag. cbn [firstn].
    rewrite app_nil_r, firstn_all, firstn_all2 by lia. reflexivity.
Qed.

Section Follows.

Variable device : USBDevice.

Lemma follows_ext {A} (s s' : CH34xUsbSerial -> list Call) (m : M A) :
  (forall d, s d = s' d) -> follows device s m -> follows device s' m.
Proof.
  intros Heq H w. specialize (H w). rewrite <- Heq. exact H.
Qed.

Lemma follows_ret {A} (a : A) : follows device (fun _ => []) (ret a).
Proof. intros w. cbn. apply advanced_refl. Qed.

Lemma follows_bind {A B} (s1 s2 : CH34xUsbSerial -> list Call)
  (m : M A) (k : A -> M B) :
  follows device s1 m -> (forall a, follows device s2 (k a)) ->
  follows device (fun d => s1 d ++ s2 d) (bind m k).
Proof.
  intros Hm Hk w. unfold bind. specialize (Hm w).
  destruct (m w) as [[a|e] w1].
  - specialize (Hk a w1). destruct Hm as (Ht & Hm').
    rewrite Ht in Hk. pose proof (conj Ht Hm') as Hadv.
    destruct (k a w1) as [[b|e] w2].
    + eapply advanced_trans; eassumption.
    + destruct Hk as (n & Hk & Hrej).
      exists (List.length (s1 (this w)) + n)%nat. split; [| exact Hrej].
      rewrite firstn_app_2. eapply advanced_trans; eassumption.
  - destruct Hm as (n & Hm & Hrej).
    destruct (firstn_of_left n (s1 (this w)) (s2 (this w))) as (n' & Hn').
    exists n'. rewrite <- Hn'. split; assumption.
Qed.

Lemma follows_bind_value {A B} (Q : A -> Prop) (s : CH34xUsbSerial -> list Call)
  (m : M A) (k : A -> M B) :
  returns_with Q m -> (forall a, Q a -> follows device s (k a)) ->
  follows device s (bind m k).
Proof.
  intros Hm Hk w. unfold bind.
  destruct (Hm w) as (a & w1 & Hrun & HQ & Hadv). rewrite Hrun.
  specialize (Hk a HQ w1). pose proof Hadv as (Ht & _). rewrite Ht in Hk.
  destruct (k a w1) as [[b|e] w2].
  - apply (advanced_trans _ _ _ _ _ Hadv Hk).
  - destruct Hk as (n & Hk & Hrej). exists n. split; [| exact Hrej].
    apply (advanced_trans _ _ _ _ _ Hadv Hk).
Qed.

Lemma returns_with_new_Uint8Array (elements : list Z) :
  returns_with (fun b => byteLength b = Z.of_nat (List.length elements))
    (new_Uint8Array elements).
Proof.
  intros w. eexists _, _. split; [reflexivity |]. split.
  - unfold byteLength. cbn [content]. rewrite length_map. reflexivity.
  - unfold advanced. cbn. rewrite app_nil_r. auto.
Qed.

Lemma vendorOut_run (request value index : Z) (w : World) :
  fst (vendorOut device request value index w) = Return tt
  /\ advanced w (snd (vendorOut device request value index w))
       [controlTransferOut request value index].
Proof.
  unfold vendorOut, bind, call. cbn [fst snd].
  destruct (settles device (calls w) _); cbn; repeat split.
Qed.

Lemma follows_vendorOut (request value index : Z) :
  follows device (fun _ => [controlTransferOut request value index])
    (vendorOut device request value index).
Proof.
  intros w. destruct (vendorOut_run request value index w) as [Ho Hadv].
  destruct (vendorOut device request value index w) as [o w'].
  cbn [fst snd] in *. subst o. exact Hadv.
Qed.

Lemma checkState_run (message : string) (request value : Z) (expected : Buffer)
  (w : World) :
  let c := controlTransferIn request value 0 (byteLength expected) in
  let run := checkState device message request value expected w in
  advanced w (snd run) [c]
  /\ match settles_in device (calls w) c with
     | Rejected reason => fst run = Throw reason
     | Resolved result =>
         exists b, fst run = Return b
                   /\ if b then status result = status_ok
                                /\ reply_length result = Some (byteLength expected)
                      else True
     end.
Proof.
  cbv zeta. unfold checkState, vendorIn, bind, call_in, reply_length.
  cbn [fst snd].
  destruct (settles_in device (calls w) _) as [[st [dv|]]|reason];
    cbn [await ret throw status data];
    [destruct st | destruct st | ];
    cbn [fst snd option_map]; try (split; [repeat split | eexists; split; [reflexivity | exact I]]).
  - destruct (Z.eqb_spec (view_byteLength dv) (byteLength expected)) as [Hlen|Hlen];
      cbn [negb];
      [destruct (same_object (ident (buffer dv)) (ident expected)); cbn [negb] |];
      cbn [fst snd];
      (split; [repeat split | eexists; split; [reflexivity | ]]);
      try exact I.
    split; [reflexivity | rewrite Hlen; reflexivity].
  - split; [repeat split | reflexivity].
Qed.

Lemma follows_checkState (message : string) (request value : Z) (expected : Buffer) :
  follows device
    (fun _ => [controlTransferIn request value 0 (byteLength expected)])
    (checkState device message request value expected).
Proof.
  intros w.
  destruct (checkState_run message request value expected w) as [Hadv Ho].
  cbv zeta in *.
  destruct (checkState device message request value expected w) as [o w'].
  cbn [fst snd] in *.
  destruct (settles_in device (calls w) _) as [r|reason] eqn:Hs.
  - destruct Ho as (b & -> & _). exact Hadv.
  - subst o. exists 1%nat. split; [exact Hadv |].
    destruct Hadv as (_ & _ & _ & Hc). rewrite Hc.
    eexists _, _. split; [reflexivity | exact Hs].
Qed.

Lemma follows_checkState_length (message : string) (request value : Z)
  (expected : Buffer) (n : nat) :
  byteLength expected = Z.of_nat n ->
  follows device (fun _ => [controlTransferIn request value 0 (Z.of_nat n)])
    (checkState device message request value expected).
Proof. intros <-. apply follows_checkState. Qed.

Lemma setBaudRate_run (baudRate : Z) (w : World) :
  let run := setBaudRate device baudRate w in
  match encodeBaudRate baudRate with
  | Return regs => fst run = Return tt /\ advanced w (snd run) (baud_writes regs)
  | Throw e => fst run = Throw e /\ advanced w (snd run) []
  end.
Proof.
  cbv zeta. unfold setBaudRate.
  destruct (encodeBaudRate baudRate) as [[val1 val2]|e].
  - rewrite (bind_run (console_ c_debug "set baud rate") _ w tt _ eq_refl).
    set (w1 := Build_World _ _ _ _ _ _).
    assert (H01 : advanced w w1 [])
      by (unfold advanced; cbn; rewrite app_nil_r; auto).
    destruct (vendorOut_run REQUEST_WRITE_REGISTRY REG_BAUD_FACTOR val1 w1)
      as [Ho1 Hadv1].
    destruct (vendorOut device _ _ val1 w1) as [o1 w2] eqn:E1.
    cbn [fst snd] in *. subst o1. rewrite (bind_run _ _ _ _ _ E1).
    destruct (vendorOut_run REQUEST_WRITE_REGISTRY REG_BAUD_OFFSET val2 w2)
      as [Ho2 Hadv2].
    split; [exact Ho2 |].
    apply (advanced_trans _ _ _ _ _ H01).
    apply (advanced_trans _ _ _ _ _ Hadv1 Hadv2).
  - cbn. split; [reflexivity |]. unfold advanced. cbn. rewrite app_nil_r. auto.
Qed.

Lemma encodeBaudRate_default : encodeBaudRate 9600 = Return (0xB282, 0x0C).
Proof. vm_compute. reflexivity. Qed.

Lemma follows_setBaudRate_default :
  follows device (fun _ => baud_writes (0xB282, 0x0C)) (setBaudRate device 9600).
Proof.
  intros w. pose proof (setBaudRate_run 9600 w) as H. cbv zeta in H.
  rewrite encodeBaudRate_default in H.
  destruct (setBaudRate device 9600 w) as [o w']. cbn [fst snd] in H.
  destruct H as [-> Hadv]. exact Hadv.
Qed.

Lemma follows_setControlLines :
  follows device
    (fun d => [controlTransferOut REG_MODEM_CTRL (control_lines_value d) 0])
    (setControlLines device).
Proof.
  intros w. destruct (setControlLines_run device w) as [Ho Hadv].
  destruct (setControlLines device w) as [o w']. cbn [fst snd] in *.
  subst o. exact Hadv.
Qed.

Lemma follows_init : follows device init_script (init device).
Proof.
  unfold init. cbv zeta.
  eapply follows_ext; cycle 1.
  - repeat lazymatch goal with
      | |- follows _ _ (bind (new_Uint8Array _) _) =>
          eapply follows_bind_value;
            [apply returns_with_new_Uint8Array | cbn [List.length]; intros ? ?]
      | |- follows _ _ (bind (checkState _ _ _ _ _) _) =>
          eapply follows_bind;
            [apply follows_checkState_length; eassumption | intros ?]
      | |- follows _ _ (bind (vendorOut _ _ _ _) _) =>
          eapply follows_bind; [apply follows_vendorOut | intros ?]
      | |- follows _ _ (bind (setBaudRate _ _) _) =>
          eapply follows_bind; [apply follows_setBaudRate_default | intros ?]
      | |- follows _ _ (bind (setControlLines _) _) =>
          eapply follows_bind; [apply follows_setControlLines | intros ?]
      | |- follows _ _ (ret _) => apply follows_ret
      end.
  - intros d. reflexivity.
Qed.

End Follows.

(** When no control-IN transfer is rejected, [init] goes through all its
    steps, whatever the replies are. *)
Lemma init_returns_when_reads_resolve (fallback : USBInTransferResult)
  (device : USBDevice) (w : World) :
  fst (init (resolving fallback device) w) = Return tt
  /\ calls (snd (init (resolving fallback device) w))
     = calls w ++ init_script (this w).
Proof.
  pose proof (follows_init (resolving fallback device) w) as H.
  destruct (init (resolving fallback device) w) as [[[]|e] w']; cbn [fst snd].
  - split; [reflexivity | apply H].
  - destruct H as (n & _ & pre & c & _ & Hrej). exfalso.
    cbn [settles_in resolving] in Hrej.
    destruct (settles_in device pre c); discriminate Hrej.
Qed.

(** C3. The register values of [setBaudRate] depend on the bitrate alone:
    on any two devices and from any two worlds (equal ones included, and
    the world a first call leaves behind), the call has the same outcome
    and makes the same register writes, and it leaves the driver object as
    it was. *)
Theorem setBaudRate_deterministic (baudRate : Z) (device1 device2 : USBDevice)
  (w1 w2 : World) :
  let run1 := setBaudRate device1 baudRate w1 in
  let run2 := setBaudRate device2 baudRate w2 in
  let writes := match encodeBaudRate baudRate with
                | Return regs => baud_writes regs
                | Throw _ => []
                end in
  fst run1 = fst run2
  /\ calls (snd run1) = calls w1 ++ writes
  /\ calls (snd run2) = calls w2 ++ writes
  /\ this (snd run1) = this w1
  /\ this (snd run2) = this w2.
Proof.
  cbv zeta.
  pose proof (setBaudRate_run device1 baudRate w1) as H1.
  pose proof (setBaudRate_run device2 baudRate w2) as H2.
  cbv zeta in H1, H2.
  destruct (encodeBaudRate baudRate) as [regs|e];
    destruct H1 as [Ho1 (Ht1 & _ & _ & Hc1)];
    destruct H2 as [Ho2 (Ht2 & _ & _ & Hc2)];
    rewrite Ho1, Ho2; auto.
Qed.

(** ** The initialization sequence *)

(** C5, as the code has it.  [init] makes the calls of its ten steps in
    order, each with the history of all the earlier ones behind it: a run
    that returns has made exactly the calls of [init_script] (steps 3 and 8
    are the two register writes of the encoding of 9600) and nothing else;
    on a device that rejects no control-IN transfer every run returns; a
    run that throws has made only a prefix of those calls, the last call
    being one the device rejected, whose rejection is what is thrown.  For
    a driver whose dtr and rts are true the script is the list spelled out
    here. *)
Theorem init_performs_ten_steps (device : USBDevice) (w : World) (baudRate : Z)
  (fallback : USBInTransferResult) :
  match init device w with
  | (Return _, w') => advanced w w' (init_script (this w))
  | (Throw e, w') =>
      exists n, advanced w w' (firstn n (init_script (this w)))
                /\ rejected_last device (calls w') e
  end
  /\ fst (init (resolving fallback device) w) = Return tt
  /\ calls (snd (init (resolving fallback device) w))
     = calls w ++ init_script (this w)
  /\ encodeBaudRate 9600 = Return (0xB282, 0x0C)
  /\ init_script (constructor baudRate) =
     [ controlTransferIn 0x5F 0 0 2;
       controlTransferOut 0xA1 0 0;
       controlTransferOut 0x9A 0x1312 0xB282;
       controlTransferOut 0x9A 0x0F2C 0x0C;
       controlTransferIn 0x95 0x2518 0 2;
       controlTransferOut 0x9A 0x2518 0xC3;
       controlTransferIn 0x95 0x0706 0 2;
       controlTransferOut 0xA1 0x501F 0xD90A;
       controlTransferOut 0x9A 0x1312 0xB282;
       controlTransferOut 0x9A 0x0F2C 0x0C;
       controlTransferOut 0xA4 (Z.lnot 0x60) 0;
       controlTransferIn 0x95 0x0706 0 2 ].
Proof.
  split; [apply follows_init |].
  destruct (init_returns_when_reads_resolve fallback device w) as [Ho Hc].
  split; [exact Ho |]. split; [exact Hc |].
  split; [apply encodeBaudRate_default | reflexivity].
Qed.

(** On a device that answers every transfer, [init] runs to its end. *)
Example init_on_healthy_device :
  fst (init healthy_device (new_world 9600)) = Return tt
  /\ calls (snd (init healthy_device (new_world 9600)))
     = init_script (constructor 9600).
Proof. split; vm_compute; reflexivity. Qed.

(** C5 as stated fails: on a device that rejects the read of the status
    register, [init] stops at step 6, after 7 of the 12 calls of its ten
    steps, and throws; steps 7 to 10 are not performed. *)
Lemma init_stops_at_rejected_status_read :
  calls (snd (init status_read_rejecting_device (new_world 9600)))
  = firstn 7 (init_script (constructor 9600))
  /\ calls (snd (init status_read_rejecting_device (new_world 9600)))
     <> init_script (constructor 9600)
  /\ fst (init status_read_rejecting_device (new_world 9600))
     = Throw (JsError "NetworkError: A transfer error has occurred.").
Proof.
  split; [vm_compute; reflexivity |]. split; [| vm_compute; reflexivity].
  intros H. vm_compute in H. discriminate H.
Qed.

(** ** checkState *)

Lemma checkState_ignores_content (device : USBDevice) (f : list Z -> list Z)
  (message : string) (request value : Z) (expected : Buffer) (w : World) :
  fst (checkState (map_replies (with_content f) device)
         message request value expected w)
  = fst (checkState device message request value expected w).
Proof.
  unfold checkState, vendorIn, bind, call_in. cbn [fst snd settles_in map_replies].
  destruct (settles_in device (calls w) _) as [[st [dv|]]|reason];
    cbn [await ret throw status data with_content]; try reflexivity;
    destruct st; reflexivity.
Qed.

(** C4, as the code has it.  [checkState] asks for [expected.byteLength]
    bytes in one control-IN transfer and touches nothing else.  When the
    transfer is rejected it throws the rejection; when it resolves it
    returns a boolean, which is true only for a reply with status ok and
    the expected length, and which does not depend on the bytes of the
    reply.  [init] does not look at that boolean: it goes through all its
    steps unless the device rejects a transfer, in which case it throws
    that rejection; when every control-IN transfer resolves, with whatever
    reply, it returns after the last step. *)
Theorem checkState_is_advisory (device : USBDevice) (f : list Z -> list Z)
  (message : string) (request value : Z) (expected : Buffer) (w : World)
  (fallback : USBInTransferResult) :
  let c := controlTransferIn request value 0 (byteLength expected) in
  let run := checkState device message request value expected w in
  advanced w (snd run) [c]
  /\ match settles_in device (calls w) c with
     | Rejected reason => fst run = Throw reason
     | Resolved result =>
         exists b, fst run = Return b
                   /\ if b then status result = status_ok
                                /\ reply_length result = Some (byteLength expected)
                      else True
     end
  /\ fst (checkState (map_replies (with_content f) device)
            message request value expected w) = fst run
  /\ fst (init (resolving fallback device) w) = Return tt
  /\ calls (snd (init (resolving fallback device) w))
     = calls w ++ init_script (this w)
  /\ match init device w with
     | (Return _, w') => calls w' = calls w ++ init_script (this w)
     | (Throw e, w') => rejected_last device (calls w') e
     end.
Proof.
  cbv zeta.
  destruct (checkState_run device message request value expected w) as [Hadv Ho].
  split; [exact Hadv |]. split; [exact Ho |].
  split; [apply checkState_ignores_content |].
  destruct (init_returns_when_reads_resolve fallback device w) as [Hr Hc].
  split; [exact Hr |]. split; [exact Hc |].
  pose proof (follows_init device w) as Hi.
  destruct (init device w) as [[u|e] w'].
  - apply Hi.
  - destruct Hi as (n & _ & Hrej). exact Hrej.
Qed.

(** C4 as stated fails: on a device that rejects its control-IN transfers
    [checkState] returns no boolean, it throws; and [init] stops after its
    first call instead of going on to the next step. *)
Lemma checkState_throws_when_rejected :
  ~ (exists b : bool,
       fst (checkState unplugged_device "init 1" REQUEST_READ_VERSION 0
              {| ident := HostObject 0; content := [255; 0] |} (new_world 9600))
       = Return b)
  /\ fst (init unplugged_device (new_world 9600))
     = Throw (JsError "NetworkError: The device was disconnected.")
  /\ calls (snd (init unplugged_device (new_world 9600)))
     = [controlTransferIn REQUEST_READ_VERSION 0 0 2].
Proof.
  split; [| split; vm_compute; reflexivity].
  intros [b Hb]. vm_compute in Hb. discriminate Hb.
Qed.

(** The replies of the healthy device have the expected length, and every
    [checkState] of [init] still reports a mismatch: the reply buffer is
    never the object that was passed as [expected]. *)
Example checkState_mismatch_on_healthy_device :
  fst (checkState healthy_device "init 1" REQUEST_READ_VERSION 0
         {| ident := HostObject 0; content := [255; 0] |} (new_world 9600))
  = Return false.
Proof. vm_compute. reflexivity. Qed.

(** ** The read loop *)

Lemma indexOf_from_range (needle s : string) :
  forall i, indexOf_from needle s i = -1 \/ i <= indexOf_from needle s i.
Proof.
  induction s as [|a s IH]; intros i; cbn [indexOf_from];
    destruct (String.prefix needle _); try (right; lia).
  - left. reflexivity.
  - destruct (IH (i + 1)) as [H|H]; [left; exact H | right; lia].
Qed.

(** The test of the catch handler, [if (error.message.indexOf(...))], holds
    exactly when the message does not start with the searched text. *)
Lemma indexOf_truthy (s needle : string) :
  truthy (indexOf s needle) = negb (String.prefix needle s).
Proof.
  unfold truthy, indexOf.
  destruct s as [|a s]; cbn [indexOf_from];
    destruct (String.prefix needle _); try reflexivity.
  destruct (indexOf_from_range needle s (0 + 1)) as [H|H].
  - rewrite H. reflexivity.
  - destruct (Z.eqb_spec (indexOf_from needle s (0 + 1)) 0); [lia | reflexivity].
Qed.

(** C7. The code does the opposite of the claim at these two failures of
    the bulk-in transfer of a running driver.  A rejection whose message is
    LIBUSB_TRANSFER_NO_DEVICE (indexOf gives 0, which is falsy) is only
    logged: no event, [isClosing] stays false and the transfer is submitted
    again.  An ordinary failure (indexOf gives -1, which is truthy) is taken
    for a removal: 'disconnected' is dispatched, [isClosing] is set and the
    loop stops. *)
Theorem readLoop_removal_test_inverted :
  let removal := Rejected (JsError "LIBUSB_TRANSFER_NO_DEVICE") in
  let ordinary := Rejected (JsError "LIBUSB_TRANSFER_TIMED_OUT") in
  let w1 := snd (bulk_in_settles healthy_device removal running_world) in
  let w2 := snd (bulk_in_settles healthy_device ordinary running_world) in
  indexOf "LIBUSB_TRANSFER_NO_DEVICE" "LIBUSB_TRANSFER_NO_DEVICE" = 0
  /\ indexOf "LIBUSB_TRANSFER_TIMED_OUT" "LIBUSB_TRANSFER_NO_DEVICE" = -1
  /\ events w1 = events running_world
  /\ isClosing (this w1) = false
  /\ calls w1 = calls running_world ++ [transferIn 2 32]
  /\ events w2 = events running_world ++ [ev_disconnected]
  /\ isClosing (this w2) = true
  /\ calls w2 = calls running_world.
Proof. cbv zeta. repeat split; vm_compute; reflexivity. Qed.

(** What the handlers of the promise chain can change: events, console and
    the closing flag, never the calls, the endpoints or the transfers in
    flight. *)
Lemma readLoop_handlers_frame (settled : Settled USBInTransferResult) (w : World) :
  let w1 := snd (readLoop_handlers settled w) in
  calls w1 = calls w
  /\ readEndpoint (this w1) = readEndpoint (this w)
  /\ (isClosing (this w) = true -> isClosing (this w1) = true).
Proof.
  cbv zeta. unfold readLoop_handlers, try_catch, bind, readLoop_then, readLoop_catch.
  destruct settled as [[st [dv|]]|e]; cbn [await ret throw data fst snd].
  - destruct (truthy (view_byteLength dv)); cbn; auto.
  - cbn; auto.
  - destruct (message_of e) as [m|]; [| cbn; auto].
    destruct (truthy (indexOf m "LIBUSB_TRANSFER_NO_DEVICE")); cbn; auto.
Qed.

Lemma readLoop_settled_calls (device : USBDevice)
  (settled : Settled USBInTransferResult) (w : World) :
  let w1 := snd (readLoop_handlers settled w) in
  let resubmit := negb (isClosing (this w1)) && opened device (calls w1) in
  calls (snd (readLoop_settled device settled w)) =
  calls (snd (if resubmit then readLoop device w1 else (Return tt, w1)))
  /\ this (snd (readLoop_settled device settled w)) =
     this (snd (if resubmit then readLoop device w1 else (Return tt, w1))).
Proof.
  cbv zeta. unfold readLoop_settled, try_finally.
  destruct (readLoop_handlers settled w) as [o w1]. cbn [snd].
  unfold readLoop_finally, bind, get_this, device_opened. cbn [fst snd].
  destruct (negb (isClosing (this w1)) && opened device (calls w1)).
  - destruct (readLoop device w1) as [[u|e] w2]; split; reflexivity.
  - split; reflexivity.
Qed.

Lemma bulk_in_settles_closing (device : USBDevice)
  (settled : Settled USBInTransferResult) (w : World) :
  isClosing (this w) = true ->
  let w' := snd (bulk_in_settles device settled w) in
  isClosing (this w') = true /\ calls w' = calls w.
Proof.
  intros Hc. cbv zeta. unfold bulk_in_settles.
  destruct (inFlight w) as [|n]; [auto |].
  set (w0 := Build_World _ _ _ _ _ _).
  destruct (readLoop_handlers_frame settled w0) as (Hcalls & _ & Hkeep).
  destruct (readLoop_settled_calls device settled w0) as [Hs Ht].
  cbv zeta in *. specialize (Hkeep Hc).
  rewrite Hkeep in Hs, Ht. cbn [negb andb snd] in Hs, Ht.
  rewrite Hs, Ht, Hcalls. auto.
Qed.

Lemma readLoop_cycles_closing (device : USBDevice)
  (l : list (Settled USBInTransferResult)) :
  forall w, isClosing (this w) = true ->
  calls (readLoop_cycles device l w) = calls w.
Proof.
  unfold readLoop_cycles, run_actions.
  induction l as [|s l IH]; intros w Hc; [reflexivity |].
  cbn [map fold_left perform].
  destruct (bulk_in_settles_closing device s w Hc) as [Hc' Hcalls].
  rewrite IH by exact Hc'. exact Hcalls.
Qed.

(** C8. When the bulk-in transfer of a cycle settles, in whatever way, the
    handlers make no call, and afterwards the loop submits the next transfer
    if and only if [isClosing] is then false and the device is open: the
    calls grow by that one transfer or not at all.  Once [isClosing] is
    true, no number of further settlements makes the loop submit another
    transfer. *)
Theorem readLoop_resubmits_iff_open_and_not_closing (device : USBDevice)
  (settled : Settled USBInTransferResult) (w : World) (ep : USBEndpoint)
  (later : list (Settled USBInTransferResult)) :
  readEndpoint (this w) = Some ep ->
  let w1 := snd (readLoop_handlers settled w) in
  let w2 := snd (readLoop_settled device settled w) in
  calls w1 = calls w
  /\ calls w2 =
     calls w ++ (if negb (isClosing (this w1)) && opened device (calls w1)
                 then [transferIn (endpointNumber ep) (packetSize ep)]
                 else [])
  /\ (isClosing (this w1) = true ->
      calls (readLoop_cycles device later w2) = calls w).
Proof.
  intros Hep. cbv zeta.
  destruct (readLoop_handlers_frame settled w) as (Hcalls & Hep1 & _).
  destruct (readLoop_settled_calls device settled w) as [Hs Ht].
  cbv zeta in *. rewrite Hep in Hep1.
  split; [exact Hcalls |]. split.
  - rewrite Hs.
    destruct (negb (isClosing (this _)) && opened device _).
    + unfold readLoop, bind, get_this. cbn [fst snd]. rewrite Hep1.
      cbn. rewrite Hcalls. reflexivity.
    + cbn [snd]. rewrite Hcalls, app_nil_r. reflexivity.
  - intros Hc. rewrite Hc in Hs, Ht. cbn [negb andb snd] in Hs, Ht.
    rewrite readLoop_cycles_closing; [rewrite Hs; exact Hcalls |].
    rewrite Ht. exact Hc.
Qed.

(** C8 at work: a settlement on the running driver submits the next
    transfer, since the driver is not closing and the device is open. *)
Lemma readLoop_resubmits_on_running_driver :
  calls (snd (readLoop_settled healthy_device (Resolved sample_reply) running_world))
  = calls running_world ++ [transferIn 2 32].
Proof.
  destruct (readLoop_resubmits_iff_open_and_not_closing healthy_device
              (Resolved sample_reply) running_world
              {| endpointNumber := 2; direction := dir_in;
                 endpointType := bulk; packetSize := 32 |} [] eq_refl)
    as (_ & H & _).
  exact H.
Defined.

(** ** open *)

Section Open.

Variable device : USBDevice.

Lemma claim_all_run (ifaces : list USBInterface) (w : World) :
  exists w', claim_all device ifaces w = (Return tt, w')
             /\ advanced w w' (claim_calls ifaces).
Proof.
  unfold claim_all.
  assert (Hmap : forall l w0, exists ps w1,
             mapM (fun iface =>
                     console_ c_log "Claiming interface" ;;
                     call device (claimInterface (interfaceNumber iface))) l w0
             = (Return ps, w1) /\ advanced w0 w1 (claim_calls l)).
  { induction l as [|a l IH]; intros w0.
    - eexists _, _. split; [reflexivity | apply advanced_refl].
    - cbn [mapM claim_calls map].
      rewrite (bind_run _ _ w0 (settles device (calls w0) (claimInterface (interfaceNumber a)))
                 (record_call (claimInterface (interfaceNumber a))
                    (snd (console_ c_log "Claiming interface" w0))) eq_refl).
      set (w1 := record_call _ _).
      destruct (IH w1) as (ps & w2 & Hrun & Hadv).
      rewrite (bind_run _ _ _ _ _ Hrun).
      eexists _, _. split; [reflexivity |].
      apply (advanced_trans w0 w1 w2 [claimInterface (interfaceNumber a)]);
        [| exact Hadv].
      unfold advanced. cbn. auto. }
  assert (Heach : forall ps w0, exists w1,
             forEach (fun p : Settled unit =>
                        match p with
                        | Resolved _ => ret tt
                        | Rejected _ => console_ c_error "error claiming interface"
                        end) ps w0
             = (Return tt, w1) /\ advanced w0 w1 []).
  { induction ps as [|p ps IH]; intros w0.
    - eexists. split; [reflexivity | apply advanced_refl].
    - cbn [forEach]. destruct p as [u|e]; unfold bind at 1; cbv beta iota.
      + cbn [ret]. apply IH.
      + cbn [console_].
        set (w1 := Build_World _ _ _ _ _ _).
        destruct (IH w1) as (w2 & Hrun & Hadv). exists w2.
        split; [exact Hrun |].
        apply (advanced_trans w0 w1 w2 [] []); [| exact Hadv].
        unfold advanced. cbn. rewrite app_nil_r. auto. }
  destruct (Hmap ifaces w) as (ps & w1 & Hrun1 & Hadv1).
  destruct (Heach ps w1) as (w2 & Hrun2 & Hadv2).
  exists w2. rewrite (bind_run _ _ _ _ _ Hrun1). split; [exact Hrun2 |].
  rewrite <- (app_nil_r (claim_calls ifaces)).
  eapply advanced_trans; eassumption.
Qed.

(** Endpoint discovery assigns endpoints and nothing else. *)
Lemma assign_endpoints_run (eps : list USBEndpoint) (w : World) :
  exists w', forEach assign_endpoint eps w = (Return tt, w')
             /\ calls w' = calls w /\ events w' = events w
             /\ inFlight w' = inFlight w
             /\ bitrate (this w') = bitrate (this w)
             /\ dtr (this w') = dtr (this w) /\ rts (this w') = rts (this w).
Proof.
  revert w. induction eps as [|ep eps IH]; intros w.
  - exists w. cbn. auto 10.
  - cbn [forEach].
    assert (H : exists w1, assign_endpoint ep w = (Return tt, w1)
                /\ calls w1 = calls w /\ events w1 = events w
                /\ inFlight w1 = inFlight w
                /\ bitrate (this w1) = bitrate (this w)
                /\ dtr (this w1) = dtr (this w) /\ rts (this w1) = rts (this w)).
    { unfold assign_endpoint.
      destruct (endpointType ep); [destruct (direction ep) | |];
        eexists; (split; [reflexivity | cbn; auto 10]). }
    destruct H as (w1 & Hrun & Hc & He & Hi & Hb & Hd & Hr).
    rewrite (bind_run _ _ _ _ _ Hrun).
    destruct (IH w1) as (w2 & Hrun2 & Hc2 & He2 & Hi2 & Hb2 & Hd2 & Hr2).
    exists w2. split; [exact Hrun2 |].
    rewrite Hc2, He2, Hi2, Hb2, Hd2, Hr2. auto 10.
Qed.

(** [close] sets the flag and dispatches 'disconnected'; when it returns,
    the interface was released and the device closed. *)
Lemma close_run (w : World) :
  let run := close device w in
  events (snd run) = events w ++ [ev_disconnected]
  /\ this (snd run) = set_isClosing true (this w)
  /\ match fst run with
     | Return _ => calls (snd run) = calls w ++ [releaseInterface 0; device_close]
     | Throw _ => True
     end.
Proof.
  cbv zeta. unfold close, bind, try_catch, call. cbn [fst snd set_this dispatchEvent].
  cbn [calls record_call].
  destruct (settles device (calls w) (releaseInterface 0)); cbn [await ret throw];
    cbn [calls record_call fst snd].
  - destruct (settles device _ device_close); cbn; rewrite <- ?app_assoc; auto.
  - cbn. auto.
Qed.

(** Starting the read loop: one bulk-in transfer, or [close] when there is
    no read endpoint. *)
Lemma readLoop_run (w : World) :
  let run := readLoop device w in
  match readEndpoint (this w) with
  | Some ep =>
      fst run = Return tt
      /\ calls (snd run) = calls w ++ [transferIn (endpointNumber ep) (packetSize ep)]
      /\ events (snd run) = events w /\ this (snd run) = this w
  | None =>
      events (snd run) = events w ++ [ev_disconnected]
      /\ this (snd run) = set_isClosing true (this w)
      /\ match fst run with
         | Return _ => calls (snd run) = calls w ++ [releaseInterface 0; device_close]
         | Throw _ => True
         end
  end.
Proof.
  cbv zeta. unfold readLoop, bind, get_this. cbn [fst snd].
  destruct (readEndpoint (this w)) as [ep|]; [cbn; auto |].
  cbn [console_ fst snd].
  set (w1 := Build_World _ _ _ _ _ _).
  exact (close_run w1).
Qed.

(** The script of [init] depends on the control lines only. *)
Lemma init_script_lines (d d' : CH34xUsbSerial) :
  dtr d' = dtr d -> rts d' = rts d -> init_script d' = init_script d.
Proof.
  intros Hd Hr. unfold init_script, control_lines_value. rewrite Hd, Hr.
  reflexivity.
Qed.

Lemma open_body_run (w : World) :
  match open_body device w with
  | (Return _, w') =>
      exists regs pre start,
        encodeBaudRate (bitrate (this w)) = Return regs
        /\ events w' = events w ++ pre ++ [ev_ready]
        /\ calls w' =
           calls w ++ [device_open] ++ claim_calls (claimed_interfaces device w)
             ++ init_script (this w) ++ baud_writes regs ++ start
        /\ match readEndpoint (this w') with
           | Some ep =>
               pre = []
               /\ start = [transferIn (endpointNumber ep) (packetSize ep)]
               /\ isClosing (this w') = false
           | None =>
               pre = [ev_disconnected]
               /\ start = [releaseInterface 0; device_close]
               /\ isClosing (this w') = true
           end
  | (Throw e, w') =>
      exists pre, events w' = events w ++ pre
                  /\ (pre = [] \/ pre = [ev_disconnected])
  end.
Proof.
  unfold open_body.
  rewrite (bind_run (call device device_open) _ w _ _ eq_refl).
  set (w1 := record_call device_open w).
  destruct (settles device (calls w) device_open) as [u|e0].
  2:{ rewrite (bind_throws (await (Rejected e0)) _ w1 e0 w1 eq_refl).
      exists []. rewrite app_nil_r. auto. }
  rewrite (bind_run (await (Resolved u)) _ w1 u w1 eq_refl).
  rewrite (bind_run (device_configuration device) _ w1 _ w1 eq_refl).
  cbv zeta. change (calls w1) with (calls w ++ [device_open]).
  fold (claimed_interfaces device w).
  set (ifaces := claimed_interfaces device w).
  destruct (claim_all_run ifaces w1) as (w2 & Hrun2 & Ht2 & He2 & Hi2 & Hc2).
  rewrite (bind_run _ _ _ _ _ Hrun2).
  destruct (last (map Some ifaces) None) as [dataInterface|].
  2:{ exists []. cbn [throw]. rewrite app_nil_r, He2. auto. }
  destruct (assign_endpoints_run (alternate_endpoints dataInterface) w2)
    as (w3 & Hrun3 & Hc3 & He3 & Hi3 & Hb3 & Hd3 & Hr3).
  rewrite (bind_run _ _ _ _ _ Hrun3).
  pose proof (follows_init device w3) as Hinit.
  destruct (init device w3) as [[u4|e4] w4] eqn:Hrun4.
  2:{ rewrite (bind_throws _ _ _ _ _ Hrun4).
      destruct Hinit as (n & (_ & He4 & _) & _).
      exists []. rewrite app_nil_r, He4, He3, He2. auto. }
  destruct Hinit as (Ht4 & He4 & Hi4 & Hc4).
  rewrite (bind_run _ _ _ _ _ Hrun4).
  rewrite (bind_run get_this _ w4 (this w4) w4 eq_refl).
  assert (Hbit : bitrate (this w4) = bitrate (this w)).
  { rewrite Ht4, Hb3, Ht2. reflexivity. }
  cbv beta. rewrite Hbit.
  pose proof (setBaudRate_run device (bitrate (this w)) w4) as Hbaud.
  cbv zeta in Hbaud.
  destruct (setBaudRate device (bitrate (this w)) w4) as [o5 w5] eqn:Hrun5.
  cbn [fst snd] in Hbaud.
  destruct (encodeBaudRate (bitrate (this w))) as [regs|e5].
  2:{ destruct Hbaud as [-> (_ & He5 & _)].
      rewrite (bind_throws _ _ _ _ _ Hrun5).
      exists []. rewrite app_nil_r, He5, He4, He3, He2. auto. }
  destruct Hbaud as [-> (Ht5 & He5 & Hi5 & Hc5)].
  rewrite (bind_run _ _ _ _ _ Hrun5).
  rewrite (bind_run (set_this (set_isClosing false)) _ w5 tt _ eq_refl).
  set (w6 := Build_World _ _ _ _ _ _).
  assert (Hcalls : calls w6 = calls w ++ [device_open] ++ claim_calls ifaces
                     ++ init_script (this w) ++ baud_writes regs).
  { subst w6. cbn [calls]. rewrite Hc5, Hc4, Hc3, Hc2.
    rewrite (init_script_lines (this w) (this w3)).
    - subst w1. cbn [calls record_call]. rewrite <- !app_assoc. reflexivity.
    - rewrite Hd3, Ht2. reflexivity.
    - rewrite Hr3, Ht2. reflexivity. }
  assert (Hev : events w6 = events w).
  { subst w6. cbn [events]. rewrite He5, He4, He3, He2. reflexivity. }
  pose proof (readLoop_run w6) as Hloop. cbv zeta in Hloop.
  destruct (readLoop device w6) as [o7 w7] eqn:Hrun7. cbn [fst snd] in Hloop.
  destruct (readEndpoint (this w6)) as [ep|] eqn:Hep.
  - destruct Hloop as (-> & Hc7 & He7 & Ht7).
    rewrite (bind_run _ _ _ _ _ Hrun7). cbn [dispatchEvent events this calls].
    exists regs, [], [transferIn (endpointNumber ep) (packetSize ep)].
    rewrite Ht7, Hep, He7, Hev, Hc7, Hcalls.
    repeat split. rewrite <- !app_assoc. reflexivity.
  - destruct Hloop as (He7 & Ht7 & Hc7).
    destruct o7 as [u7|e7].
    + rewrite (bind_run _ _ _ _ _ Hrun7). cbn [dispatchEvent events this calls].
      exists regs, [ev_disconnected], [releaseInterface 0; device_close].
      rewrite Ht7, He7, Hev, Hc7, Hcalls. cbn [set_isClosing readEndpoint isClosing].
      rewrite Hep. repeat split; rewrite <- !app_assoc; reflexivity.
    + rewrite (bind_throws _ _ _ _ _ Hrun7).
      exists [ev_disconnected]. rewrite He7, Hev. auto.
Qed.


End Open.

(** C6 at work: opening the healthy device gives one 'ready' and no other
    event. *)
Example open_healthy_device_ready :
  events running_world = [ev_ready]
  /\ events (snd (open unplugged_device (new_world 9600)))
     = [ev_error (JsError "NetworkError: The device was disconnected.")].
Proof. split; vm_compute; reflexivity. Qed.

(** * Further properties of the code *)

(** ** The encoder: rejected rates and the shape of the register values *)

Lemma in_low_rates (b : Z) : 1 <= b <= 46 -> In b low_rates.
Proof.
  intros H. unfold low_rates. apply in_map_iff.
  exists (Z.to_nat b). split; [lia |]. apply in_seq. lia.
Qed.

(** X1. The encoder rejects exactly the rates 1 to 45 at the low end: each
    of them throws UnsupportedBaudRate, and 46 baud is the first rate that
    is encoded. *)
Theorem lowest_supported_baud_rate (baudRate : Z) :
  1 <= baudRate <= 46 ->
  encodeBaudRate baudRate =
  if baudRate =? 46 then Return (0x0180, 0xCF)
  else Throw (UnsupportedBaudRate baudRate).
Proof.
  intros H. apply in_low_rates in H.
  assert (Hall : forallb (fun b => same_result
                            (Some (encodeBaudRate b))
                            (Some (if b =? 46 then Return (0x0180, 0xCF)
                                   else Throw (UnsupportedBaudRate b))))
                   low_rates = true) by (vm_compute; reflexivity).
  rewrite forallb_forall in Hall. specialize (Hall _ H).
  apply same_result_eq in Hall. injection Hall as Hall. exact Hall.
Qed.

Lemma lowest_supported_baud_rate_at_10 :
  encodeBaudRate 10 = Throw (UnsupportedBaudRate 10).
Proof. apply (lowest_supported_baud_rate 10). lia. Defined.

(** Each iteration of the loop takes one off the divisor: started at [d],
    the loop ends with [d] minus the number of its iterations. *)
Lemma while_loop_divisor_count (fuel : nat) :
  forall (factor : JS.number) (d : Z) (v : LoopVars) (n : nat),
  In d [0; 1; 2; 3] ->
  while_loop fuel (factor, JS.of_int d) = Some (v, n) ->
  snd v = JS.of_int (d - Z.of_nat n) /\ Z.of_nat n <= d.
Proof.
  induction fuel as [|fuel IH]; intros factor d v n Hd Hrun;
    rewrite while_loop_unfold in Hrun;
    destruct (loop_cond (factor, JS.of_int d)) eqn:Hc; try discriminate Hrun.
  - injection Hrun as <- <-. cbn [snd Z.of_nat]. rewrite Z.sub_0_r.
    cbn [In] in Hd. split; [reflexivity | lia].
  - destruct (while_loop fuel (loop_body (factor, JS.of_int d)))
      as [[v' m]|] eqn:Hin; [| discriminate Hrun].
    injection Hrun as <- <-. unfold loop_body in Hin. cbn [fst snd] in Hin.
    assert (Hstep : JS.sub (JS.of_int d) (JS.of_int 1) = JS.of_int (d - 1)
                    /\ In (d - 1) [0; 1; 2; 3]).
    { cbn [In] in Hd. destruct Hd as [<-|[<-|[<-|[<-|[]]]]].
      - unfold loop_cond in Hc. cbn [fst snd] in Hc.
        replace (JS.gt (JS.of_int 0) (JS.of_int 0)) with false in Hc by reflexivity.
        rewrite andb_false_r in Hc. discriminate Hc.
      - split; [reflexivity | cbn; auto].
      - split; [reflexivity | cbn; auto].
      - split; [reflexivity | cbn; auto]. }
    destruct Hstep as [Hsub Hin']. rewrite Hsub in Hin.
    destruct (IH _ _ _ _ Hin' Hin) as [Hsnd Hle].
    rewrite Hsnd. split; [f_equal; lia | lia].
  - injection Hrun as <- <-. cbn [snd Z.of_nat]. rewrite Z.sub_0_r.
    cbn [In] in Hd. split; [reflexivity | lia].
Qed.

(** [t & 0xff00] keeps bits 8 to 15 of [t]. *)
Lemma land_high_byte (t : Z) :
  Z.land t 0xff00 = 256 * ((t / 256) mod 256).
Proof.
  change 0xff00 with (Z.shiftl (Z.ones 8) 8).
  replace (256 * ((t / 256) mod 256))
    with (Z.shiftl (Z.land (Z.shiftr t 8) (Z.ones 8)) 8).
  - apply Z.bits_inj'. intros n Hn.
    rewrite Z.land_spec. destruct (Z.ltb_spec n 8) as [Hlt|Hge].
    + rewrite !Z.shiftl_spec_low by lia. apply andb_false_r.
    + rewrite !Z.shiftl_spec by lia. rewrite Z.land_spec, Z.shiftr_spec by lia.
      replace (n - 8 + 8) with n by lia. reflexivity.
  - rewrite Z.shiftl_mul_pow2, Z.land_ones, Z.shiftr_div_pow2 by lia.
    change (2 ^ 8) with 256. lia.
Qed.

Lemma in_byte_values (k : Z) : 0 <= k <= 255 -> In k byte_values.
Proof.
  intros H. unfold byte_values. apply in_map_iff.
  exists (Z.to_nat k). split; [lia |]. apply in_seq. lia.
Qed.

(** The high byte and the divisor byte are or-ed without loss. *)
Lemma bor_high_byte_divisor (k d : Z) :
  0 <= k <= 255 -> In d [0; 1; 2; 3; 7] ->
  JS.bor (JS.of_int (256 * k)) (JS.of_int (JS.bor (JS.of_int d) (JS.of_int 0x0080)))
  = 256 * k + 128 + d.
Proof.
  intros Hk Hd. apply in_byte_values in Hk.
  assert (Hall : forallb (fun k =>
                   forallb (fun d =>
                     JS.bor (JS.of_int (256 * k))
                       (JS.of_int (JS.bor (JS.of_int d) (JS.of_int 0x0080)))
                     =? 256 * k + 128 + d) [0; 1; 2; 3; 7]) byte_values = true)
    by (vm_compute; reflexivity).
  rewrite forallb_forall in Hall. specialize (Hall _ Hk).
  rewrite forallb_forall in Hall. specialize (Hall _ Hd).
  apply Z.eqb_eq in Hall. exact Hall.
Qed.

Lemma registerValues_shape (factor : JS.number) (d : Z) :
  In d [0; 1; 2; 3; 7] ->
  registerValues factor (JS.of_int d)
  = (256 * ((JS.ToInt32 factor / 256) mod 256) + 128 + d,
     JS.ToInt32 factor mod 256).
Proof.
  intros Hd. unfold registerValues, JS.band.
  change (JS.ToInt32 (JS.of_int 0xff00)) with 0xff00.
  change (JS.ToInt32 (JS.of_int 0xff)) with (Z.ones 8).
  rewrite land_high_byte, Z.land_ones by lia.
  rewrite bor_high_byte_divisor; [reflexivity | | exact Hd].
  pose proof (Z.mod_pos_bound (JS.ToInt32 factor / 256) 256). lia.
Qed.

(** X2. Whenever the encoder returns, the two register values are made
    of bytes: the first is 256 * hi + 0x80 + divisor and the second is one
    byte.  At 921600 baud they are the fixed 0xF387 and 0 (divisor 7, high
    byte 0xF3).  At every other rate the divisor is 3 minus the number of
    shifts the loop made, so one of 3, 2, 1, 0, and hi and the second value
    are bits 8 to 15 and bits 0 to 7 of 0x10000 - factor, for the factor the
    loop ended with. *)
Theorem setBaudRate_register_shape (baudRate val1 val2 : Z) :
  encodeBaudRate baudRate = Return (val1, val2) ->
  0 <= val2 <= 255
  /\ exists hi divisor,
       0 <= hi <= 255
       /\ val1 = 256 * hi + 128 + divisor
       /\ if baudRate =? 921600
          then divisor = 7 /\ hi = 0xF3 /\ val2 = 0
          else exists factor shifts,
                 while_loop loop_bound
                   (JS.div (JS.of_int baseFactor) (JS.of_int baudRate),
                    JS.of_int divmax)
                 = Some ((factor, JS.of_int divisor), shifts)
                 /\ divisor = 3 - Z.of_nat shifts
                 /\ 0 <= divisor <= 3
                 /\ hi = (JS.ToInt32 (JS.sub (JS.of_int 0x10000) factor) / 256)
                         mod 256
                 /\ val2 = JS.ToInt32 (JS.sub (JS.of_int 0x10000) factor)
                           mod 256.
Proof.
  unfold encodeBaudRate, encode_fuel.
  destruct (baudRate =? 921600).
  - intros H.
    assert (Hfixed : registerValues (JS.of_int 0xf300) (JS.of_int 7) = (0xF387, 0))
      by (vm_compute; reflexivity).
    rewrite Hfixed in H. injection H as <- <-.
    split; [lia |]. exists 0xF3, 7. repeat split; lia.
  - destruct (while_loop loop_bound _) as [[[f d] n]|] eqn:Hrun; [| discriminate].
    destruct (while_loop_divisor_count _ _ 3 _ _ ltac:(cbn; auto) Hrun)
      as (Hsnd & Hle).
    cbn [snd] in Hsnd. subst d.
    destruct (JS.gt f (JS.of_int 0xfff0)); [discriminate |].
    intros H.
    assert (Hd : In (3 - Z.of_nat n) [0; 1; 2; 3; 7]).
    { cbn [In]. assert (Hn : 0 <= Z.of_nat n) by lia. lia. }
    assert (Hr : registerValues (JS.sub (JS.of_int 0x10000) f)
                   (JS.of_int (3 - Z.of_nat n)) = (val1, val2)) by congruence.
    rewrite (registerValues_shape _ _ Hd) in Hr.
    pose proof (f_equal fst Hr) as H1. pose proof (f_equal snd Hr) as H2.
    cbn [fst snd] in H1, H2. subst val1 val2. clear Hr H.
    pose proof (Z.mod_pos_bound (JS.ToInt32 (JS.sub (JS.of_int 0x10000) f)) 256).
    pose proof (Z.mod_pos_bound
                  (JS.ToInt32 (JS.sub (JS.of_int 0x10000) f) / 256) 256).
    split; [lia |].
    exists ((JS.ToInt32 (JS.sub (JS.of_int 0x10000) f) / 256) mod 256),
      (3 - Z.of_nat n).
    split; [lia |]. split; [reflexivity |].
    exists f, n. split; [reflexivity |]. repeat split; lia.
Qed.

Lemma setBaudRate_register_shape_at_9600 :
  0 <= 0x0C <= 255
  /\ exists hi divisor,
       0 <= hi <= 255
       /\ 0xB282 = 256 * hi + 128 + divisor
       /\ if 9600 =? 921600
          then divisor = 7 /\ hi = 0xF3 /\ 0x0C = 0
          else exists factor shifts,
                 while_loop loop_bound
                   (JS.div (JS.of_int baseFactor) (JS.of_int 9600),
                    JS.of_int divmax)
                 = Some ((factor, JS.of_int divisor), shifts)
                 /\ divisor = 3 - Z.of_nat shifts
                 /\ 0 <= divisor <= 3
                 /\ hi = (JS.ToInt32 (JS.sub (JS.of_int 0x10000) factor) / 256)
                         mod 256
                 /\ 0x0C = JS.ToInt32 (JS.sub (JS.of_int 0x10000) factor)
                           mod 256.
Proof. apply (setBaudRate_register_shape 9600). vm_compute. reflexivity. Defined.

(** ** Register writes *)

(** The only failure of the encoder is UnsupportedBaudRate. *)
Lemma encodeBaudRate_throws (baudRate : Z) (e : JsValue) :
  encodeBaudRate baudRate = Throw e -> e = UnsupportedBaudRate baudRate.
Proof.
  unfold encodeBaudRate, encode_fuel.
  destruct (baudRate =? 921600); [discriminate |].
  destruct (stops_within_divmax O
              (JS.div (JS.of_int baseFactor) (JS.of_int baudRate)))
    as (v & n & Hrun & _).
  rewrite Nat.add_0_r in Hrun. rewrite Hrun. destruct v as [f d].
  destruct (JS.gt f (JS.of_int 0xfff0)); [| discriminate].
  intros H. injection H as <-. reflexivity.
Qed.

(** X3. A control-OUT transfer the device rejects is never raised to the
    caller.  [vendorOut] returns on every device, after exactly the one
    transfer it was asked for, with the driver object and the events
    untouched and one console line: a warning when the transfer was
    rejected.  [setControlLines] does the same with its one transfer, of
    the control-lines value to REG_MODEM_CTRL.  [setBaudRate] returns after
    exactly its two register writes when the rate is encoded; its only
    failure is the encoder's UnsupportedBaudRate, thrown before any
    transfer is made. *)
Theorem register_writes_never_raise_transport_errors (device : USBDevice)
  (request value index baudRate : Z) (w : World) :
  let out := vendorOut device request value index w in
  let lines := setControlLines device w in
  let lines_call :=
    controlTransferOut REG_MODEM_CTRL (control_lines_value (this w)) 0 in
  let baud := setBaudRate device baudRate w in
  let console_line (c : Call) :=
    match settles device (calls w) c with
    | Resolved _ => (c_log, "vendorOut success")
    | Rejected _ => (c_warn, "vendorOut failed")
    end in
  fst out = Return tt
  /\ calls (snd out) = calls w ++ [controlTransferOut request value index]
  /\ console (snd out)
     = console w ++ [console_line (controlTransferOut request value index)]
  /\ this (snd out) = this w
  /\ events (snd out) = events w
  /\ fst lines = Return tt
  /\ calls (snd lines) = calls w ++ [lines_call]
  /\ console (snd lines) = console w ++ [console_line lines_call]
  /\ this (snd lines) = this w
  /\ events (snd lines) = events w
  /\ this (snd baud) = this w
  /\ events (snd baud) = events w
  /\ match encodeBaudRate baudRate with
     | Return regs => fst baud = Return tt
                      /\ calls (snd baud) = calls w ++ baud_writes regs
     | Throw e => e = UnsupportedBaudRate baudRate
                  /\ fst baud = Throw e
                  /\ calls (snd baud) = calls w
     end.
Proof.
  cbv zeta.
  destruct (vendorOut_run device request value index w)
    as [Ho (Ht & He & _ & Hc)].
  destruct (setControlLines_run device w) as [Hlo (Hlt & Hle & _ & Hlc)].
  assert (Hcon : forall r v i,
            console (snd (vendorOut device r v i w))
            = console w ++ [match settles device (calls w) (controlTransferOut r v i) with
                            | Resolved _ => (c_log, "vendorOut success")
                            | Rejected _ => (c_warn, "vendorOut failed")
                            end]).
  { intros r v i. unfold vendorOut, bind, call. cbn [fst snd].
    destruct (settles device (calls w) _); reflexivity. }
  pose proof (setBaudRate_run device baudRate w) as Hb. cbv zeta in Hb.
  repeat match goal with |- _ /\ _ => split end;
    try assumption; try apply Hcon.
  - destruct (encodeBaudRate baudRate); apply Hb.
  - destruct (encodeBaudRate baudRate); apply Hb.
  - destruct (encodeBaudRate baudRate) as [regs|e] eqn:Henc.
    + destruct Hb as [Hbo (_ & _ & _ & Hbc)]. auto.
    + destruct Hb as [Hbo (_ & _ & _ & Hbc)].
      rewrite app_nil_r in Hbc. apply encodeBaudRate_throws in Henc. auto.
Qed.

(** ** checkState with an array of the driver *)

(** X4. Called with an expected array the driver itself created, as [init]
    does, [checkState] never returns true: the buffer of a reply is an
    object of the transport, so the identity comparison fails even for a
    reply with status ok and the right length. *)
Theorem checkState_never_true_for_own_array (device : USBDevice)
  (message : string) (request value : Z) (n : nat) (bytes : list Z) (w : World) :
  transport_owned device ->
  fst (checkState device message request value
         {| ident := HostObject n; content := bytes |} w) <> Return true.
Proof.
  intros Hown. unfold checkState, vendorIn, bind, call_in. cbn [fst snd].
  destruct (settles_in device (calls w) _) as [[st [dv|]]|reason] eqn:Hs;
    cbn [await ret throw status data].
  - destruct (Hown _ _ _ dv Hs eq_refl) as [m Hm].
    destruct st; cbn [fst snd]; try discriminate.
    destruct (negb (view_byteLength dv =? _)); cbn [fst snd]; [discriminate |].
    rewrite Hm. cbn. discriminate.
  - destruct st; cbn; discriminate.
  - cbn. discriminate.
Qed.

Lemma healthy_device_transport_owned : transport_owned healthy_device.
Proof.
  intros h c r d Hs Hd. cbn in Hs. injection Hs as <-. cbn in Hd.
  injection Hd as <-. exists O. reflexivity.
Qed.

Lemma checkState_never_true_on_healthy_device :
  fst (checkState healthy_device "init 1" REQUEST_READ_VERSION 0
         {| ident := HostObject 0; content := [255; 0] |} (new_world 9600))
  <> Return true.
Proof.
  apply checkState_never_true_for_own_array, healthy_device_transport_owned.
Defined.

(** ** close *)

Lemma close_world (device : USBDevice) (w : World) :
  let run := close device w in
  events (snd run) = events w ++ [ev_disconnected]
  /\ this (snd run) = set_isClosing true (this w)
  /\ inFlight (snd run) = inFlight w
  /\ match settles device (calls w) (releaseInterface 0) with
     | Rejected err =>
         fst run = Throw err
         /\ calls (snd run) = calls w ++ [releaseInterface 0]
     | Resolved _ =>
         calls (snd run) = calls w ++ [releaseInterface 0; device_close]
         /\ fst run =
            match settles device (calls w ++ [releaseInterface 0]) device_close with
            | Resolved _ => Return tt
            | Rejected err => Throw err
            end
     end.
Proof.
  cbv zeta. unfold close, bind, try_catch, call.
  cbn [fst snd set_this dispatchEvent calls record_call].
  destruct (settles device (calls w) (releaseInterface 0)); cbn [await ret throw];
    cbn [calls record_call fst snd].
  - destruct (settles device _ device_close) as [[]|err]; cbn;
      rewrite <- ?app_assoc; auto.
  - cbn. auto.
Qed.

(** X5. [close] always sets [isClosing] and dispatches one 'disconnected',
    then releases interface 0 and closes the device, in that order.  When
    the release is rejected the device is never closed and the rejection is
    thrown; when the close is rejected that rejection is thrown. *)
Theorem close_releases_then_closes (device : USBDevice) (w : World) :
  let run := close device w in
  events (snd run) = events w ++ [ev_disconnected]
  /\ this (snd run) = set_isClosing true (this w)
  /\ match settles device (calls w) (releaseInterface 0) with
     | Rejected err =>
         fst run = Throw err
         /\ calls (snd run) = calls w ++ [releaseInterface 0]
     | Resolved _ =>
         calls (snd run) = calls w ++ [releaseInterface 0; device_close]
         /\ fst run =
            match settles device (calls w ++ [releaseInterface 0]) device_close with
            | Resolved _ => Return tt
            | Rejected err => Throw err
            end
     end.
Proof.
  cbv zeta. destruct (close_world device w) as (He & Ht & _ & Hc). auto.
Qed.

Lemma readLoop_cycles_stay_closed (device : USBDevice)
  (l : list (Settled USBInTransferResult)) :
  forall w, isClosing (this w) = true ->
  isClosing (this (readLoop_cycles device l w)) = true
  /\ calls (readLoop_cycles device l w) = calls w.
Proof.
  unfold readLoop_cycles, run_actions.
  induction l as [|s l IH]; intros w Hc; [auto |].
  cbn [map fold_left perform].
  destruct (bulk_in_settles_closing device s w Hc) as [Hc' Hcalls].
  destruct (IH _ Hc') as [H1 H2]. rewrite H2. auto.
Qed.

(** X6. [close] stops the read loop: after it, however many bulk-in
    transfers still settle and in whatever way, the loop submits no further
    transfer and the driver stays closing. *)
Theorem close_stops_the_read_loop (device : USBDevice) (w : World)
  (later : list (Settled USBInTransferResult)) :
  let closed := snd (close device w) in
  calls (readLoop_cycles device later closed) = calls closed
  /\ isClosing (this (readLoop_cycles device later closed)) = true.
Proof.
  cbv zeta. destruct (close_world device w) as (_ & Ht & _).
  destruct (readLoop_cycles_stay_closed device later (snd (close device w))) as [H1 H2].
  - rewrite Ht. reflexivity.
  - auto.
Qed.

(** ** The promise chain of the read loop *)

(** What [readLoop_settled] leaves behind, from what the handlers leave
    behind, when the read endpoint is assigned. *)
Lemma readLoop_settled_world (device : USBDevice)
  (settled : Settled USBInTransferResult) (w : World) (ep : USBEndpoint) :
  readEndpoint (this w) = Some ep ->
  let w1 := snd (readLoop_handlers settled w) in
  let run := readLoop_settled device settled w in
  fst run = fst (readLoop_handlers settled w)
  /\ events (snd run) = events w1
  /\ this (snd run) = this w1
  /\ calls (snd run) =
     calls w ++ next_transfer (negb (isClosing (this w1)) && opened device (calls w)) ep.
Proof.
  intros Hep. cbv zeta.
  destruct (readLoop_handlers_frame settled w) as (Hcalls & Hep1 & _).
  cbv zeta in *. rewrite Hep in Hep1.
  unfold readLoop_settled, try_finally.
  destruct (readLoop_handlers settled w) as [o w1]. cbn [fst snd] in *.
  unfold readLoop_finally, bind, get_this, device_opened. cbn [fst snd].
  rewrite Hcalls.
  destruct (negb (isClosing (this w1)) && opened device (calls w)); cbn [next_transfer].
  - unfold readLoop, bind, get_this. cbn [fst snd]. rewrite Hep1.
    cbn. rewrite Hcalls. auto.
  - cbn. rewrite Hcalls, app_nil_r. auto.
Qed.

(** X7. A bulk-in transfer that resolves with a non-empty view dispatches
    exactly one 'data' event, carrying all the bytes of the reply's buffer;
    an empty view or a reply without data dispatches nothing.  The handler
    does not look at [isClosing]: the event is dispatched on a closing
    driver too.  The next transfer is submitted when the driver is not
    closing and the device is open. *)
Theorem data_event_per_nonempty_transfer (device : USBDevice)
  (result : USBInTransferResult) (w : World) (n : nat) (ep : USBEndpoint) :
  inFlight w = S n ->
  readEndpoint (this w) = Some ep ->
  let run := bulk_in_settles device (Resolved result) w in
  fst run = Return tt
  /\ events (snd run) =
     events w ++ match data result with
                 | Some d => if view_byteLength d =? 0 then []
                             else [ev_data (content (buffer d))]
                 | None => []
                 end
  /\ isClosing (this (snd run)) = isClosing (this w)
  /\ inFlight (snd run) =
     (if negb (isClosing (this w)) && opened device (calls w) then S n else n)
  /\ calls (snd run) =
     calls w ++ next_transfer (negb (isClosing (this w)) && opened device (calls w)) ep.
Proof.
  intros Hfl Hep. cbv zeta. unfold bulk_in_settles. rewrite Hfl.
  set (w0 := Build_World _ _ _ _ _ _).
  assert (Hh : readLoop_handlers (Resolved result) w0 = readLoop_then result w0)
    by (unfold readLoop_handlers, try_catch, bind; cbn [await ret];
        destruct (readLoop_then result w0) as [[u|e] w1] eqn:Ht; [reflexivity |];
        unfold readLoop_then in Ht; destruct (data result) as [d|];
        [destruct (truthy (view_byteLength d)) |]; discriminate Ht).
  assert (Hthen : fst (readLoop_then result w0) = Return tt
                  /\ events (snd (readLoop_then result w0)) =
                     events w ++ match data result with
                                 | Some d => if view_byteLength d =? 0 then []
                                             else [ev_data (content (buffer d))]
                                 | None => []
                                 end
                  /\ this (snd (readLoop_then result w0)) = this w
                  /\ inFlight (snd (readLoop_then result w0)) = n).
  { unfold readLoop_then, truthy. destruct (data result) as [d|].
    - destruct (view_byteLength d =? 0); cbn; rewrite ?app_nil_r; auto.
    - cbn. rewrite app_nil_r. auto. }
  destruct Hthen as (Ho & He & Ht & Hi).
  assert (Hc1 : calls (snd (readLoop_then result w0)) = calls w).
  { pose proof (readLoop_handlers_frame (Resolved result) w0) as (Hc & _).
    cbv zeta in Hc. rewrite Hh in Hc. exact Hc. }
  unfold readLoop_settled, try_finally. rewrite Hh.
  destruct (readLoop_then result w0) as [o w1]. cbn [fst snd] in *.
  unfold readLoop_finally, bind, get_this, device_opened. cbn [fst snd].
  rewrite Ht, Hc1.
  destruct (negb (isClosing (this w)) && opened device (calls w)); cbn [next_transfer].
  - unfold readLoop, bind, get_this. cbn [fst snd]. rewrite Ht, Hep.
    cbn. rewrite Ho, He, Ht, Hi, Hc1. auto.
  - cbn. rewrite Ho, He, Ht, Hi, Hc1, app_nil_r. auto.
Qed.

Lemma data_event_on_running_driver :
  events (snd (bulk_in_settles healthy_device (Resolved sample_reply) running_world))
  = events running_world ++ [ev_data [0x31; 0x00]].
Proof.
  destruct (data_event_per_nonempty_transfer healthy_device sample_reply
              running_world 0
              {| endpointNumber := 2; direction := dir_in;
                 endpointType := bulk; packetSize := 32 |} eq_refl eq_refl)
    as (_ & H & _).
  exact H.
Defined.

(** X8. How the catch handler of the read loop sorts failures.  A rejection
    with a message that begins with LIBUSB_TRANSFER_NO_DEVICE (indexOf is 0)
    dispatches nothing and leaves [isClosing] alone, so the loop goes on if
    it was going; the same holds for a rejection value that has no message,
    on which the handler itself throws.  Every other message dispatches
    'disconnected', sets [isClosing] and ends the loop. *)
Theorem failure_ends_loop_unless_message_starts_with_removal (device : USBDevice)
  (error : JsValue) (w : World) (n : nat) (ep : USBEndpoint) :
  inFlight w = S n ->
  readEndpoint (this w) = Some ep ->
  let w' := snd (bulk_in_settles device (Rejected error) w) in
  let goes_on :=
    events w' = events w
    /\ isClosing (this w') = isClosing (this w)
    /\ calls w' =
       calls w ++ next_transfer (negb (isClosing (this w)) && opened device (calls w)) ep in
  match message_of error with
  | Some message =>
      if String.prefix "LIBUSB_TRANSFER_NO_DEVICE" message then goes_on
      else events w' = events w ++ [ev_disconnected]
           /\ isClosing (this w') = true
           /\ calls w' = calls w
  | None => goes_on
  end.
Proof.
  intros Hfl Hep. cbv zeta. unfold bulk_in_settles. rewrite Hfl.
  set (w0 := Build_World _ _ _ _ _ _).
  destruct (readLoop_settled_world device (Rejected error) w0 ep Hep)
    as (_ & He & Ht & Hc).
  cbv zeta in *. rewrite He, Ht, Hc. clear He Ht Hc.
  change (calls w0) with (calls w).
  unfold readLoop_handlers, try_catch, bind, readLoop_catch.
  cbn [await throw fst snd].
  destruct (message_of error) as [m|].
  - rewrite indexOf_truthy.
    destruct (String.prefix "LIBUSB_TRANSFER_NO_DEVICE" m); cbn [negb].
    + cbn. auto.
    + cbn. rewrite app_nil_r. auto.
  - cbn. auto.
Qed.

Lemma failure_on_running_driver :
  events (snd (bulk_in_settles healthy_device
                 (Rejected (JsError "NetworkError: transfer failed")) running_world))
  = events running_world ++ [ev_disconnected].
Proof.
  pose proof (failure_ends_loop_unless_message_starts_with_removal healthy_device
                (JsError "NetworkError: transfer failed") running_world 0
                {| endpointNumber := 2; direction := dir_in;
                   endpointType := bulk; packetSize := 32 |} eq_refl eq_refl) as H.
  exact (proj1 H).
Defined.

(** X9. Without a read endpoint [readLoop] reads nothing: it closes the
    driver instead, exactly as [close] does (flag, 'disconnected', release,
    close), starts no bulk-in transfer, and fails when [close] fails. *)
Theorem readLoop_without_endpoint_closes (device : USBDevice) (w : World) :
  readEndpoint (this w) = None ->
  let run := readLoop device w in
  let closed := close device w in
  fst run = fst closed
  /\ calls (snd run) = calls (snd closed)
  /\ events (snd run) = events w ++ [ev_disconnected]
  /\ isClosing (this (snd run)) = true
  /\ inFlight (snd run) = inFlight w.
Proof.
  intros Hep. cbv zeta. unfold readLoop, bind, get_this. cbn [fst snd].
  rewrite Hep. cbn [console_ fst snd].
  set (w1 := Build_World _ _ _ _ _ _).
  destruct (close_world device w1) as (He1 & Ht1 & Hi1 & Hc1).
  destruct (close_world device w) as (He & Ht & Hi & Hc).
  cbv zeta in *. change (calls w1) with (calls w) in Hc1.
  rewrite He1, Ht1, Hi1. cbn [events this inFlight w1 set_isClosing isClosing].
  destruct (settles device (calls w) (releaseInterface 0)).
  - destruct Hc1 as [-> ->], Hc as [-> ->]. auto.
  - destruct Hc1 as [-> ->], Hc as [-> ->]. auto.
Qed.

Lemma readLoop_on_new_driver_closes :
  events (snd (readLoop healthy_device (new_world 9600))) = [ev_disconnected].
Proof.
  destruct (readLoop_without_endpoint_closes healthy_device (new_world 9600) eq_refl)
    as (_ & _ & H & _).
  exact H.
Defined.

(** ** The call history only grows *)

Section Grows.

Variable device : USBDevice.

Lemma grows_same {A} (m : M A) :
  (forall w, calls (snd (m w)) = calls w) -> grows m.
Proof. intros H w. exists []. rewrite app_nil_r. apply H. Qed.

Lemma grows_bind {A B} (m : M A) (k : A -> M B) :
  grows m -> (forall a, grows (k a)) -> grows (bind m k).
Proof.
  intros Hm Hk w. unfold bind. destruct (Hm w) as [cs Hcs].
  destruct (m w) as [[a|e] w1]; cbn [snd] in *.
  - destruct (Hk a w1) as [cs' Hcs']. exists (cs ++ cs').
    rewrite Hcs', Hcs, app_assoc. reflexivity.
  - exists cs. exact Hcs.
Qed.

Lemma grows_try_catch {A} (m : M A) (h : JsValue -> M A) :
  grows m -> (forall e, grows (h e)) -> grows (try_catch m h).
Proof.
  intros Hm Hh w. unfold try_catch. destruct (Hm w) as [cs Hcs].
  destruct (m w) as [[a|e] w1]; cbn [snd] in *.
  - exists cs. exact Hcs.
  - destruct (Hh e w1) as [cs' Hcs']. exists (cs ++ cs').
    rewrite Hcs', Hcs, app_assoc. reflexivity.
Qed.

Lemma grows_advanced {A} (m : M A) :
  (forall w, exists cs, advanced w (snd (m w)) cs) -> grows m.
Proof.
  intros H w. destruct (H w) as (cs & _ & _ & _ & Hc). exists cs. exact Hc.
Qed.

Lemma grows_vendorOut request value index :
  grows (vendorOut device request value index).
Proof.
  apply grows_advanced. intros w. eexists. apply vendorOut_run.
Qed.

Lemma grows_checkState message request value expected :
  grows (checkState device message request value expected).
Proof.
  apply grows_advanced. intros w. eexists.
  apply (checkState_run device message request value expected w).
Qed.

Lemma grows_setBaudRate baudRate : grows (setBaudRate device baudRate).
Proof.
  apply grows_advanced. intros w.
  pose proof (setBaudRate_run device baudRate w) as H. cbv zeta in H.
  destruct (encodeBaudRate baudRate); eexists; apply H.
Qed.

Lemma grows_setControlLines : grows (setControlLines device).
Proof.
  apply grows_advanced. intros w. eexists. apply setControlLines_run.
Qed.

Lemma grows_close : grows (close device).
Proof.
  intros w. destruct (close_world device w) as (_ & _ & _ & H).
  destruct (settles device (calls w) (releaseInterface 0));
    destruct H as [H1 H2]; eexists; first [exact H1 | exact H2].
Qed.

Lemma grows_readLoop : grows (readLoop device).
Proof.
  intros w. unfold readLoop, bind, get_this. cbn [fst snd].
  destruct (readEndpoint (this w)) as [ep|].
  - eexists. reflexivity.
  - cbn [console_ fst snd]. set (w1 := Build_World _ _ _ _ _ _).
    destruct (grows_close w1) as [cs Hcs]. exists cs. exact Hcs.
Qed.

(** Take a program apart along its binds, with the methods as wholes. *)
Ltac grows_all :=
  repeat lazymatch goal with
    | |- grows (checkState _ _ _ _ _) => apply grows_checkState
    | |- grows (vendorOut _ _ _ _) => apply grows_vendorOut
    | |- grows (setBaudRate _ _) => apply grows_setBaudRate
    | |- grows (setControlLines _) => apply grows_setControlLines
    | |- grows (readLoop _) => apply grows_readLoop
    | |- grows (bind _ _) => apply grows_bind; [| intros ?]
    | |- grows _ => apply grows_same; intros ?; reflexivity
    end.

(** [init] begins with the read of the version register, whatever happens
    afterwards. *)
Lemma init_first_call (w : World) :
  exists cs, calls (snd (init device w))
             = calls w ++ controlTransferIn REQUEST_READ_VERSION 0 0 2 :: cs.
Proof.
  unfold init. cbv zeta.
  rewrite (bind_run (new_Uint8Array [-1; 0]) _ w _ _ eq_refl).
  set (expected := Build_Buffer _ _). set (w1 := Build_World _ _ _ _ _ _).
  pose proof (checkState_run device "init 1" REQUEST_READ_VERSION 0 expected w1)
    as [(_ & _ & _ & Hc) _].
  cbv zeta in Hc. change (byteLength expected) with 2 in Hc.
  change (calls w1) with (calls w) in Hc.
  match goal with
  | |- context [bind (checkState device "init 1" REQUEST_READ_VERSION 0 expected) ?k] =>
      assert (Hk : forall a, grows (k a)) by (intros a; grows_all);
      set (K := k) in *
  end.
  unfold bind at 1.
  destruct (checkState device "init 1" REQUEST_READ_VERSION 0 expected w1)
    as [[b|e] w2]; cbn [snd] in *.
  - destruct (Hk b w2) as [cs Hcs]. exists cs.
    rewrite Hcs, Hc, <- app_assoc. reflexivity.
  - exists []. exact Hc.
Qed.

Lemma grows_init : grows (init device).
Proof.
  intros w. destruct (init_first_call w) as [cs H]. eexists. exact H.
Qed.

Lemma grows_open_rest : grows (open_rest device).
Proof.
  unfold open_rest.
  apply grows_bind; [apply grows_init | intros _]. grows_all.
Qed.

End Grows.

(** ** Endpoint discovery and the early steps of open *)

Lemma find_app {A} (f : A -> bool) (l1 l2 : list A) :
  find f (l1 ++ l2) = or_else (find f l1) (find f l2).
Proof.
  induction l1 as [|a l1 IH]; cbn; [reflexivity |].
  destruct (f a); [reflexivity | exact IH].
Qed.

Lemma last_bulk_cons (d : USBDirection) (ep : USBEndpoint) (eps : list USBEndpoint) :
  last_bulk d (ep :: eps) =
  or_else (last_bulk d eps) (if is_bulk_toward d ep then Some ep else None).
Proof.
  unfold last_bulk. cbn [rev]. rewrite find_app. cbn [find].
  destruct (is_bulk_toward d ep); reflexivity.
Qed.

(** After the loop over the endpoints, each endpoint field holds the last
    bulk endpoint of its direction, or what it held before. *)
Lemma assign_endpoints_last (eps : list USBEndpoint) :
  forall w,
  let w' := snd (forEach assign_endpoint eps w) in
  readEndpoint (this w') = or_else (last_bulk dir_in eps) (readEndpoint (this w))
  /\ writeEndpoint (this w') = or_else (last_bulk dir_out eps) (writeEndpoint (this w))
  /\ isClosing (this w') = isClosing (this w).
Proof.
  induction eps as [|ep eps IH]; intros w; cbv zeta; [cbn; auto |].
  rewrite !last_bulk_cons. cbn [forEach].
  assert (H : exists w1, assign_endpoint ep w = (Return tt, w1)
              /\ readEndpoint (this w1)
                 = or_else (if is_bulk_toward dir_in ep then Some ep else None)
                     (readEndpoint (this w))
              /\ writeEndpoint (this w1)
                 = or_else (if is_bulk_toward dir_out ep then Some ep else None)
                     (writeEndpoint (this w))
              /\ isClosing (this w1) = isClosing (this w)).
  { unfold assign_endpoint, is_bulk_toward.
    destruct (endpointType ep); [destruct (direction ep) | |];
      eexists; (split; [reflexivity | cbn; auto]). }
  destruct H as (w1 & Hrun & Hr & Hw & Hc).
  rewrite (bind_run _ _ _ _ _ Hrun).
  destruct (IH w1) as (Hr' & Hw' & Hc'). cbv zeta in *.
  rewrite Hr', Hw', Hc', Hr, Hw, Hc.
  repeat split;
    [destruct (last_bulk dir_in eps) | destruct (last_bulk dir_out eps)];
    reflexivity.
Qed.

Section OpenStages.

Variable device : USBDevice.

(** [open_body] in stages: the open, the claims, the choice of the data
    interface, the endpoints, and the rest. *)
Lemma open_body_split (w : World) :
  match settles device (calls w) device_open with
  | Rejected e => open_body device w = (Throw e, record_call device_open w)
  | Resolved _ =>
      exists w2,
        advanced (record_call device_open w) w2
          (claim_calls (claimed_interfaces device w))
        /\ match last (map Some (claimed_interfaces device w)) None with
           | None => exists msg, open_body device w = (Throw (JsError msg), w2)
           | Some iface =>
               exists w3,
                 forEach assign_endpoint (alternate_endpoints iface) w2
                 = (Return tt, w3)
                 /\ open_body device w = open_rest device w3
           end
  end.
Proof.
  unfold open_body.
  rewrite (bind_run (call device device_open) _ w _ _ eq_refl).
  set (w1 := record_call device_open w).
  destruct (settles device (calls w) device_open) as [u|e0].
  2:{ rewrite (bind_throws (await (Rejected e0)) _ w1 e0 w1 eq_refl). reflexivity. }
  rewrite (bind_run (await (Resolved u)) _ w1 u w1 eq_refl).
  rewrite (bind_run (device_configuration device) _ w1 _ w1 eq_refl).
  cbv zeta. change (calls w1) with (calls w ++ [device_open]).
  fold (claimed_interfaces device w).
  set (ifaces := claimed_interfaces device w).
  destruct (claim_all_run device ifaces w1) as (w2 & Hrun2 & Hadv2).
  rewrite (bind_run _ _ _ _ _ Hrun2).
  exists w2. split; [exact Hadv2 |].
  destruct (last (map Some ifaces) None) as [iface|].
  - destruct (assign_endpoints_run (alternate_endpoints iface) w2)
      as (w3 & Hrun3 & _).
    exists w3. split; [exact Hrun3 |].
    rewrite (bind_run _ _ _ _ _ Hrun3). reflexivity.
  - eexists. reflexivity.
Qed.

Lemma last_map_Some_nil {A} (l : list A) :
  last (map Some l) None = None -> l = [].
Proof.
  induction l as [|a l IH]; [reflexivity |]. cbn [map last].
  destruct (map Some l) eqn:Hl; [discriminate |].
  intros H. apply IH in H. subst l. discriminate Hl.
Qed.

(** The catch handler of [open] adds the 'error' event and nothing else. *)
Lemma open_from_body (w : World) :
  let body := open_body device w in
  let w' := snd (open device w) in
  calls w' = calls (snd body) /\ this w' = this (snd body)
  /\ inFlight w' = inFlight (snd body)
  /\ events w' = events (snd body) ++ match fst body with
                                      | Return _ => []
                                      | Throw e => [ev_error e]
                                      end.
Proof.
  cbv zeta. unfold open, try_catch.
  destruct (open_body device w) as [[u|e] w1]; cbn; rewrite ?app_nil_r; auto.
Qed.

(** The rest of [open] begins with the first read of [init]. *)
Lemma open_rest_first_call (w : World) :
  exists cs, calls (snd (open_rest device w))
             = calls w ++ controlTransferIn REQUEST_READ_VERSION 0 0 2 :: cs.
Proof.
  destruct (init_first_call device w) as [cs Hcs]. unfold open_rest.
  match goal with
  | |- context [bind (init device) ?k] =>
      assert (Hk : forall a, grows (k a));
      [ intros a;
        repeat lazymatch goal with
          | |- grows (setBaudRate _ _) => apply grows_setBaudRate
          | |- grows (readLoop _) => apply grows_readLoop
          | |- grows (bind _ _) => apply grows_bind; [| intros ?]
          | |- grows _ => apply grows_same; intros ?; reflexivity
          end
      | set (K := k) in * ]
  end.
  unfold bind. destruct (init device w) as [[u|e] w1]; cbn [snd] in *.
  - destruct (Hk u w1) as [cs' Hcs']. exists (cs ++ cs').
    rewrite Hcs', Hcs, <- app_assoc. reflexivity.
  - exists cs. exact Hcs.
Qed.

(** X10. When the device cannot be opened, or its configuration has no
    interface, [open] stops there: after the rejected open (or after the
    open alone, there being nothing to claim) it makes no further call,
    changes nothing in the driver, and dispatches one 'error' event. *)
Theorem open_stops_without_device_or_interface (w : World) :
  let w' := snd (open device w) in
  match settles device (calls w) device_open with
  | Rejected e =>
      calls w' = calls w ++ [device_open]
      /\ this w' = this w
      /\ events w' = events w ++ [ev_error e]
  | Resolved _ =>
      match claimed_interfaces device w with
      | [] =>
          calls w' = calls w ++ [device_open]
          /\ this w' = this w
          /\ exists msg, events w' = events w ++ [ev_error (JsError msg)]
      | _ :: _ => True
      end
  end.
Proof.
  cbv zeta. pose proof (open_body_split w) as H.
  destruct (open_from_body w) as (Hc & Ht & _ & He). cbv zeta in *.
  destruct (settles device (calls w) device_open) as [u|e].
  - destruct (claimed_interfaces device w) as [|i l]; [| exact I].
    destruct H as (w2 & (Ht2 & He2 & _ & Hc2) & Hlast). cbn [map last] in Hlast.
    destruct Hlast as [msg Hrun]. rewrite Hrun in *. cbn [fst snd] in *.
    rewrite Hc, Ht, He, Hc2, Ht2, He2. cbn [claim_calls map record_call calls this events].
    rewrite app_nil_r. repeat split. exists msg. reflexivity.
  - rewrite H in *. cbn [fst snd] in *. rewrite Hc, Ht, He. cbn. auto.
Qed.

(** X11. Once the device is open, every interface of its configuration is
    claimed once, in their order, before anything else; a rejected claim
    stops nothing: when there is an interface at all, the next call is the
    first read of [init]. *)
Theorem open_claims_every_interface (w : World) :
  let w' := snd (open device w) in
  match settles device (calls w) device_open with
  | Rejected _ => True
  | Resolved _ =>
      exists rest,
        calls w' = calls w ++ [device_open]
                     ++ claim_calls (claimed_interfaces device w) ++ rest
        /\ match claimed_interfaces device w with
           | [] => rest = []
           | _ :: _ =>
               exists rest', rest = controlTransferIn REQUEST_READ_VERSION 0 0 2 :: rest'
           end
  end.
Proof.
  cbv zeta. pose proof (open_body_split w) as H.
  destruct (open_from_body w) as (Hc & _). cbv zeta in Hc.
  destruct (settles device (calls w) device_open) as [u|e]; [| exact I].
  destruct H as (w2 & (_ & _ & _ & Hc2) & Hlast).
  cbn [record_call calls] in Hc2.
  destruct (last (map Some (claimed_interfaces device w)) None) as [iface|] eqn:Hl.
  - destruct Hlast as (w3 & Hrun3 & Hbody).
    destruct (assign_endpoints_run (alternate_endpoints iface) w2)
      as (w3' & Hrun3' & Hc3 & _).
    rewrite Hrun3 in Hrun3'. injection Hrun3' as <-.
    rewrite Hc, Hbody.
    destruct (open_rest_first_call w3) as [cs' Hcs'].
    exists (controlTransferIn REQUEST_READ_VERSION 0 0 2 :: cs'). split.
    + rewrite Hcs', Hc3, Hc2, <- !app_assoc. reflexivity.
    + destruct (claimed_interfaces device w); [discriminate Hl |].
      exists cs'. reflexivity.
  - apply last_map_Some_nil in Hl. destruct Hlast as [msg Hrun].
    exists []. rewrite Hl in *. split; [| reflexivity].
    rewrite Hc, Hrun. cbn [snd]. rewrite Hc2. cbn [claim_calls map].
    rewrite !app_nil_r. reflexivity.
Qed.

(** X12. After [open], whether it succeeded or failed later, the read
    endpoint is the last bulk-in endpoint of the last interface, and the
    write endpoint its last bulk-out endpoint; an endpoint field for which
    that interface has no bulk endpoint keeps what it held before.
    Endpoints of other types and of other interfaces are ignored. *)
Theorem open_takes_last_bulk_endpoints (w : World) :
  let w' := snd (open device w) in
  match settles device (calls w) device_open with
  | Rejected _ => True
  | Resolved _ =>
      match last (map Some (claimed_interfaces device w)) None with
      | None => True
      | Some iface =>
          readEndpoint (this w')
          = or_else (last_bulk dir_in (alternate_endpoints iface))
              (readEndpoint (this w))
          /\ writeEndpoint (this w')
             = or_else (last_bulk dir_out (alternate_endpoints iface))
                 (writeEndpoint (this w))
      end
  end.
Proof.
  cbv zeta. pose proof (open_body_split w) as H.
  destruct (open_from_body w) as (_ & Ht & _). cbv zeta in Ht.
  destruct (settles device (calls w) device_open) as [u|e]; [| exact I].
  destruct H as (w2 & (Ht2 & _) & Hlast).
  destruct (last (map Some (claimed_interfaces device w)) None) as [iface|];
    [| exact I].
  destruct Hlast as (w3 & Hrun3 & Hbody).
  destruct (assign_endpoints_last (alternate_endpoints iface) w2) as (Hr & Hw & _).
  cbv zeta in Hr, Hw. rewrite Hrun3 in Hr, Hw. cbn [snd] in Hr, Hw.
  rewrite Ht2 in Hr, Hw. cbn [record_call this] in Hr, Hw.
  rewrite Ht, Hbody, <- Hr, <- Hw.
  apply (keeps_bind (fun d => readEndpoint d = readEndpoint (this w3)
                              /\ writeEndpoint d = writeEndpoint (this w3))
           (init device)).
  - apply keeps_init.
  - intros _. apply keeps_bind; [apply keeps_get_this | intros d].
    apply keeps_bind; [apply keeps_setBaudRate | intros _].
    apply keeps_bind; [apply keeps_set_this; intros d0 Hd0; exact Hd0 | intros _].
    apply keeps_bind; [apply keeps_readLoop; intros d0 Hd0; exact Hd0 | intros _].
    apply keeps_dispatchEvent.
  - split; reflexivity.
Qed.

End OpenStages.

(** ** A baud rate the encoder rejects *)

Lemma open_rest_unsupported (device : USBDevice) (w : World) (e : JsValue) :
  encodeBaudRate (bitrate (this w)) = Throw e ->
  let run := open_rest device w in
  (exists e', fst run = Throw e')
  /\ events (snd run) = events w
  /\ this (snd run) = this w
  /\ inFlight (snd run) = inFlight w.
Proof.
  intros Henc. cbv zeta. unfold open_rest.
  pose proof (follows_init device w) as Hinit.
  destruct (init device w) as [[u4|e4] w4] eqn:Hrun4.
  - destruct Hinit as (Ht4 & He4 & Hi4 & _).
    rewrite (bind_run _ _ _ _ _ Hrun4).
    rewrite (bind_run get_this _ w4 (this w4) w4 eq_refl). cbv beta.
    pose proof (setBaudRate_run device (bitrate (this w4)) w4) as Hbaud.
    cbv zeta in Hbaud. rewrite Ht4, Henc in Hbaud. rewrite Ht4.
    destruct Hbaud as [Ho (Ht5 & He5 & Hi5 & _)].
    destruct (setBaudRate device (bitrate (this w)) w4) as [o5 w5] eqn:Hrun5.
    cbn [fst snd] in *. subst o5. rewrite (bind_throws _ _ _ _ _ Hrun5).
    cbn [fst snd]. rewrite Ht5, He5, Hi5, Ht4, He4, Hi4. eauto.
  - destruct Hinit as (n & (Ht4 & He4 & Hi4 & _) & _).
    rewrite (bind_throws _ _ _ _ _ Hrun4). cbn [fst snd]. eauto.
Qed.

(** X13. With a baud rate in the constructor that the encoder rejects (1
    to 45, for one), [open] can only fail: it ends with exactly one 'error'
    event and no other, it never clears [isClosing] and it never starts the
    read loop. *)
Theorem open_fails_on_unsupported_baud_rate (device : USBDevice) (w : World)
  (e : JsValue) :
  encodeBaudRate (bitrate (this w)) = Throw e ->
  let w' := snd (open device w) in
  (exists e', events w' = events w ++ [ev_error e'])
  /\ isClosing (this w') = isClosing (this w)
  /\ inFlight w' = inFlight w.
Proof.
  intros Henc. cbv zeta. pose proof (open_body_split device w) as H.
  destruct (open_from_body device w) as (_ & Ht & Hi & He). cbv zeta in *.
  rewrite Ht, Hi, He. clear Ht Hi He.
  destruct (settles device (calls w) device_open) as [u|e0].
  - destruct H as (w2 & (Ht2 & He2 & Hi2 & _) & Hlast).
    cbn [record_call this events inFlight] in Ht2, He2, Hi2.
    destruct (last (map Some (claimed_interfaces device w)) None) as [iface|].
    + destruct Hlast as (w3 & Hrun3 & Hbody).
      destruct (assign_endpoints_run (alternate_endpoints iface) w2)
        as (w3' & Hrun3' & _ & He3 & Hi3 & Hb3 & _).
      rewrite Hrun3 in Hrun3'. injection Hrun3' as <-.
      destruct (assign_endpoints_last (alternate_endpoints iface) w2) as (_ & _ & Hc3).
      cbv zeta in Hc3. rewrite Hrun3 in Hc3. cbn [snd] in Hc3.
      rewrite Hbody.
      destruct (open_rest_unsupported device w3 e) as ([e' Ho] & He4 & Ht4 & Hi4).
      { rewrite Hb3, Ht2. exact Henc. }
      cbv zeta in *. rewrite Ho, He4, Ht4, Hi4, He3, Hi3, Hc3, He2, Hi2, Ht2.
      eauto.
    + destruct Hlast as [msg Hrun]. rewrite Hrun. cbn [fst snd].
      rewrite He2, Ht2, Hi2. eauto.
  - rewrite H. cbn. eauto.
Qed.

Lemma open_fails_at_1_baud :
  exists e', events (snd (open healthy_device (new_world 1))) = [ev_error e'].
Proof.
  destruct (open_fails_on_unsupported_baud_rate healthy_device (new_world 1)
              (UnsupportedBaudRate 1)) as (H & _).
  - vm_compute. reflexivity.
  - exact H.
Defined.

(** ** What only open changes *)

(** X14. Only [open] clears [isClosing]: once the flag is set, it stays set
    through every other method (close, write, the register operations, the
    private ones) and every settlement of a bulk-in transfer. *)
Theorem isClosing_cleared_only_by_open (device : USBDevice) (w : World)
  (actions : list Action) :
  isClosing (this w) = true ->
  isClosing (this (run_actions device
                     (filter (fun a => negb (is_open a)) actions) w)) = true.
Proof.
  intros H.
  apply (run_actions_invariant (fun d => isClosing d = true)); [| exact H].
  intros a w0 Ha H0. apply keeps_perform; try exact H0.
  - intros d Hd. reflexivity.
  - destruct (is_open a); [discriminate | reflexivity].
Qed.

Lemma isClosing_stays_after_close :
  isClosing (this (run_actions healthy_device
                     (filter (fun a => negb (is_open a))
                        [do_settle (Resolved sample_reply); do_write [1; 2]])
                     (snd (close healthy_device running_world)))) = true.
Proof.
  apply (isClosing_cleared_only_by_open healthy_device
           (snd (close healthy_device running_world))).
  reflexivity.
Defined.

(** X15. Only [open] assigns the endpoints: every other method and every
    settlement leaves [readEndpoint] and [writeEndpoint] as they were (no
    method ever unsets them, [close] included). *)
Theorem endpoints_assigned_only_by_open (device : USBDevice) (w : World)
  (actions : list Action) :
  let w' := run_actions device (filter (fun a => negb (is_open a)) actions) w in
  readEndpoint (this w') = readEndpoint (this w)
  /\ writeEndpoint (this w') = writeEndpoint (this w).
Proof.
  cbv zeta.
  apply (run_actions_invariant
           (fun d => readEndpoint d = readEndpoint (this w)
                     /\ writeEndpoint d = writeEndpoint (this w)));
    [| split; reflexivity].
  intros a w0 Ha H0. apply keeps_perform; try exact H0.
  - intros d Hd. exact Hd.
  - destruct (is_open a); [discriminate | reflexivity].
Qed.

(** ** Which method dispatches which event *)

Lemma readLoop_handlers_events (settled : Settled USBInTransferResult) (w : World) :
  exists l, events (snd (readLoop_handlers settled w)) = events w ++ l
            /\ Forall (fun e => e = ev_disconnected \/ exists d, e = ev_data d) l.
Proof.
  unfold readLoop_handlers, try_catch, bind, readLoop_then, readLoop_catch.
  destruct settled as [[st [dv|]]|e]; cbn [await ret throw data fst snd].
  - destruct (truthy (view_byteLength dv)); cbn.
    + eexists. split; [reflexivity |]. constructor; [eauto | constructor].
    + exists []. rewrite app_nil_r. auto.
  - cbn. exists []. rewrite app_nil_r. auto.
  - destruct (message_of e) as [m|].
    + destruct (truthy (indexOf m "LIBUSB_TRANSFER_NO_DEVICE")); cbn.
      * eexists. split; [reflexivity |]. constructor; [auto | constructor].
      * exists []. rewrite app_nil_r. auto.
    + cbn. exists []. rewrite app_nil_r. auto.
Qed.

Lemma readLoop_events (device : USBDevice) (w : World) :
  events (snd (readLoop device w)) =
  events w ++ match readEndpoint (this w) with
              | Some _ => []
              | None => [ev_disconnected]
              end.
Proof.
  pose proof (readLoop_run device w) as H. cbv zeta in H.
  destruct (readEndpoint (this w)).
  - destruct H as (_ & _ & He & _). rewrite He, app_nil_r. reflexivity.
  - apply H.
Qed.

(** X16. Which method dispatches which event.  The register operations
    (vendorOut, vendorIn, checkState, setBaudRate, setControlLines, init)
    and [write] dispatch nothing.  [close] dispatches one 'disconnected';
    [readLoop] dispatches it only when it has no read endpoint.  A
    settlement of the bulk-in transfer dispatches only 'data' and
    'disconnected' events.  'ready' and 'error' come from [open] alone,
    one of the two per call, as its last event. *)
Theorem events_by_method (device : USBDevice) (a : Action) (w : World) :
  let w' := perform device a w in
  match a with
  | do_open =>
      exists pre final,
        events w' = events w ++ pre ++ [final]
        /\ (pre = [] \/ pre = [ev_disconnected])
        /\ (final = ev_ready \/ exists e, final = ev_error e)
  | do_close => events w' = events w ++ [ev_disconnected]
  | do_readLoop =>
      events w' = events w ++ match readEndpoint (this w) with
                              | Some _ => []
                              | None => [ev_disconnected]
                              end
  | do_settle _ =>
      exists l, events w' = events w ++ l
                /\ Forall (fun e => e = ev_disconnected \/ exists d, e = ev_data d) l
  | _ => events w' = events w
  end.
Proof.
  cbv zeta. destruct a; cbn [perform].
  - destruct (open_from_body device w) as (_ & _ & _ & He). cbv zeta in He.
    rewrite He. pose proof (open_body_run device w) as H.
    destruct (open_body device w) as [[u|e] w1]; cbn [fst snd].
    + destruct H as (regs & pre & start & _ & Hev & _ & Hep).
      exists pre, ev_ready. rewrite Hev, app_nil_r. split; [reflexivity |].
      split; [| auto].
      destruct (readEndpoint (this w1)); destruct Hep as (-> & _); auto.
    + destruct H as (pre & Hev & Hpre). exists pre, (ev_error e).
      rewrite Hev, <- app_assoc. eauto.
  - apply close_world.
  - unfold write, bind, get_this, call. cbn [fst snd].
    destruct (writeEndpoint (this w)); [| reflexivity]. cbn [fst snd].
    destruct (settles device _ _); reflexivity.
  - apply setControlLines_run.
  - pose proof (setBaudRate_run device baudRate w) as H. cbv zeta in H.
    destruct (encodeBaudRate baudRate); apply H.
  - apply vendorOut_run.
  - unfold vendorIn, bind, call_in. cbn [fst snd].
    destruct (settles_in device _ _); reflexivity.
  - apply (checkState_run device message request value expected w).
  - unfold bulk_in_settles. destruct (inFlight w) as [|n].
    + exists []. rewrite app_nil_r. auto.
    + set (w0 := Build_World _ _ _ _ _ _).
      destruct (readLoop_handlers_events settled w0) as (l & Hl & Hall).
      change (events w0) with (events w) in Hl.
      unfold readLoop_settled, try_finally.
      destruct (readLoop_handlers settled w0) as [o w1]. cbn [snd] in Hl.
      unfold readLoop_finally, bind, get_this, device_opened. cbn [fst snd].
      destruct (negb (isClosing (this w1)) && opened device (calls w1)).
      * pose proof (readLoop_events device w1) as Hr.
        destruct (readLoop device w1) as [[u|e] w2]; cbn [snd] in *;
          (exists (l ++ match readEndpoint (this w1) with
                        | Some _ => []
                        | None => [ev_disconnected]
                        end);
           split; [rewrite Hr, Hl, app_assoc; reflexivity |];
           apply Forall_app; split; [exact Hall |];
           destruct (readEndpoint (this w1)); auto).
      * cbn. exists l. auto.
  - pose proof (follows_init device w) as H.
    destruct (init device w) as [[u|e] w1]; cbn [snd].
    + apply H.
    + destruct H as (n & H & _). apply H.
  - apply readLoop_events.
Qed.
